(** * useWebsetPolling: the polling and incremental-merge hook

    A shallow embedding of [useWebsetPolling] (the React hook that tracks a
    webset job) and of the two interfaces it reads, [WebsetItem] and
    [WebsetData].

    Conventions.
    - A TypeScript value of type [T | undefined] (an optional field, an
      optional parameter) is an [option T]; [None] is [undefined].  The
      nullable [websetId : string | null] and [liveData : WebsetData | null]
      are options as well, [None] being [null]: the hook only ever tests them
      for truthiness or reads them through [?.], which treat [null] and
      [undefined] alike.
    - JavaScript truthiness is the class [Truthy]; [a || b] is [js_or] and
      [a && b] is [js_and].
    - [number] fields are carried through untouched by the hook; they are
      integers here.
    - The [Set] of ids is a [gset]. *)

From stdpp Require Import base option strings list gmap.

(** ** JavaScript truthiness *)

Class Truthy (A : Type) := truthy : A → bool.
Global Hint Mode Truthy ! : typeclass_instances.

(** The empty string is the only falsy string. *)
Global Instance truthy_string : Truthy string :=
  λ s, bool_decide (s ≠ EmptyString).
Global Instance truthy_bool : Truthy bool := λ b, b.
(** Arrays are objects: always truthy, also when empty. *)
Global Instance truthy_list {A} : Truthy (list A) := λ _, true.
(** [undefined] and [null] are falsy. *)
Global Instance truthy_option `{Truthy A} : Truthy (option A) :=
  λ o, match o with Some a => truthy a | None => false end.

(** [a || b] *)
Definition js_or `{Truthy A} (a b : A) : A := if truthy a then a else b.
(** [a && b], for a boolean [b]: the value is [a] itself when [a] is falsy. *)
Definition js_and (a : option bool) (b : bool) : option bool :=
  if truthy a then Some b else a.

(** ** The data model (types.ts) *)

Module WebsetItem.
(** [id] is declared [string]; it is optional here because the hook itself
    guards against a record that arrives without one ([item.id && ...]).
    The fields after [id] are payload the hook never reads. *)
Record t := mk {
  id : option string;
  name : option string;
  title : option string;
  type : string;
  description : option string;
  url : option string;
}.
(** An item that carries only an id: [{id: s}]. *)
Definition of_id (s : string) : t := mk (Some s) None None EmptyString None None.
End WebsetItem.

Module Progress.
Record t := mk {
  found : Z;
  analyzed : Z;
  completion : Z;
  time_left : option (option Z);   (* number | null | undefined *)
}.
End Progress.

Module WebsetData.
(** The fields of [WebsetData] the hook reads or writes.  The object the
    hook builds has exactly these fields. *)
Record t := mk {
  webset_id : option string;
  external_id : option string;
  query : option string;
  entity_type : option string;
  status : option string;
  search_status : option string;
  items_found : option Z;
  items_returned : option Z;
  cost_deducted : option string;
  items : option (list WebsetItem.t);
  is_processing : option bool;
  is_complete : option bool;
  progress : option Progress.t;
  message : option string;
}.
(** [{}] *)
Definition empty : t :=
  mk None None None None None None None None None None None None None None.
End WebsetData.

Module ApiData.
(** The payload of the status endpoint.  The hook declares
    [is_processing] and [is_complete] as [boolean], but the payload is
    JSON that nothing validates and the hook copies and tests the two
    flags as they come: a payload that omits one stores [undefined], so
    they are optional here. *)
Record t := mk {
  webset_id : string;
  status : string;
  search_status : option string;
  is_processing : option bool;
  is_complete : option bool;
  progress : option Progress.t;
  items_found : Z;
  items_returned : Z;
  items : option (list WebsetItem.t);
  message : string;
}.
End ApiData.

(** The envelope [backendApi.get] resolves to. *)
Record ApiResponse := mkResponse {
  success : bool;
  data : option ApiData.t;
}.

(** How the awaited request settles: it resolves to an envelope, or the
    [await] throws. *)
Inductive Outcome :=
| Resolved (response : ApiResponse)
| Rejected.

(** ** Merging items (pollWebsetStatus, "Merge items intelligently") *)

Section Merge.
(** [existing] is [liveData?.items || initialData.items || []],
    [incoming] is [apiData.items || []]. *)
Variables existing incoming : list WebsetItem.t.

Definition existingItemIds : gset (option string) :=
  list_to_set (WebsetItem.id <$> existing).

Definition newItems : list WebsetItem.t :=
  filter (λ item, truthy (WebsetItem.id item)
                  ∧ WebsetItem.id item ∉ existingItemIds) incoming.

Definition mergedItems : list WebsetItem.t := existing ++ newItems.
End Merge.

(** ** The polling decision *)

(** [liveData || initialData] *)
Definition effectiveData (liveData : option WebsetData.t)
    (initialData : WebsetData.t) : WebsetData.t :=
  default initialData liveData.

(** [['running', 'pending'].includes(status)] *)
Definition includes (l : list string) (s : string) : bool :=
  bool_decide (s ∈ l).

(** The body of the [useMemo] that computes [shouldPoll].  Its value is a
    boolean or [undefined]: the second [return] yields the left operand of
    [&&] when that operand is falsy. *)
Definition shouldPoll (websetId : option string) (enabled : bool)
    (initialData effectiveData : WebsetData.t) : option bool :=
  if negb (truthy websetId) || negb enabled then Some false
  else if bool_decide (WebsetData.is_processing initialData ≠ None)
          || bool_decide (WebsetData.is_processing effectiveData ≠ None)
  then js_and (js_or (WebsetData.is_processing initialData)
                     (WebsetData.is_processing effectiveData))
              (negb (truthy (WebsetData.is_complete effectiveData)))
  else
    let status := js_or (WebsetData.status effectiveData)
                        (WebsetData.status initialData) in
    if match status with
       | Some s => truthy s && includes ["running"; "pending"] s
       | None => false
       end
    then Some true
    else if truthy websetId && negb (truthy status)
            && negb (truthy (WebsetData.is_complete effectiveData))
    then Some true
    else Some false.

(** ** The hook instance *)

Module Render.
(** What the closures created during one render see: the props of that
    render and the two [useState] values of that render. *)
Record t := mk {
  websetId : option string;
  initialData : WebsetData.t;
  enabled : bool;                    (* after the default [enabled = true] *)
  liveData : option WebsetData.t;
  isPolling : bool;
}.
End Render.

(** Objects are truthy. *)
Global Instance truthy_data : Truthy WebsetData.t := λ _, true.
Global Instance truthy_render : Truthy Render.t := λ _, true.

Module Hook.
(** What persists between renders.  [current] holds the latest props and
    state, the ones the next render reads.  An armed interval is
    represented by the render whose [pollWebsetStatus] its callback
    captured; [pending] lists the requests that have been issued and have
    not settled, each with the render whose [pollWebsetStatus] awaits it.
    [cleanup] tells whether the last run of the polling effect returned
    its cleanup function. *)
Record t := mk {
  current : Render.t;
  pollingIntervalRef : option Render.t;
  pollCountRef : nat;
  cleanup : bool;
  pending : list Render.t;
}.

Definition setLiveData (d : WebsetData.t) (h : t) : t :=
  let r := current h in
  mk (Render.mk (Render.websetId r) (Render.initialData r)
        (Render.enabled r) (Some d) (Render.isPolling r))
     (pollingIntervalRef h) (pollCountRef h) (cleanup h) (pending h).

Definition setIsPolling (b : bool) (h : t) : t :=
  let r := current h in
  mk (Render.mk (Render.websetId r) (Render.initialData r)
        (Render.enabled r) (Render.liveData r) b)
     (pollingIntervalRef h) (pollCountRef h) (cleanup h) (pending h).

Definition setProps (websetId : option string) (initialData : WebsetData.t)
    (enabled : option bool) (h : t) : t :=
  let r := current h in
  mk (Render.mk websetId initialData (default true enabled)
        (Render.liveData r) (Render.isPolling r))
     (pollingIntervalRef h) (pollCountRef h) (cleanup h) (pending h).

Definition setInterval (o : option Render.t) (h : t) : t :=
  mk (current h) o (pollCountRef h) (cleanup h) (pending h).

Definition setPollCount (n : nat) (h : t) : t :=
  mk (current h) (pollingIntervalRef h) n (cleanup h) (pending h).

Definition setCleanup (b : bool) (h : t) : t :=
  mk (current h) (pollingIntervalRef h) (pollCountRef h) b (pending h).

Definition setPending (l : list Render.t) (h : t) : t :=
  mk (current h) (pollingIntervalRef h) (pollCountRef h) (cleanup h) l.

(** [if (pollingIntervalRef.current) { clearInterval(...);
    pollingIntervalRef.current = null; }] *)
Definition clearPollingInterval (h : t) : t := setInterval None h.

Definition liveData (h : t) : option WebsetData.t := Render.liveData (current h).
Definition isPolling (h : t) : bool := Render.isPolling (current h).
End Hook.

(** ** pollWebsetStatus *)

(** [liveData?.items || initialData.items || []] *)
Definition existingItems (r : Render.t) : list WebsetItem.t :=
  default []
    (js_or (Render.liveData r ≫= WebsetData.items)
           (WebsetData.items (Render.initialData r))).

(** [apiData.items || []] *)
Definition incomingItems (apiData : ApiData.t) : list WebsetItem.t :=
  default [] (ApiData.items apiData).

(** The object handed to [setLiveData] after a successful response,
    by a [pollWebsetStatus] created in render [r]. *)
Definition nextLiveData (r : Render.t) (apiData : ApiData.t) : WebsetData.t :=
  let initialData := Render.initialData r in
  let liveData := Render.liveData r in
  let effective := effectiveData liveData initialData in
  {| WebsetData.webset_id := Some (ApiData.webset_id apiData);
     WebsetData.status := Some (ApiData.status apiData);
     WebsetData.search_status := ApiData.search_status apiData;
     WebsetData.is_processing := ApiData.is_processing apiData;
     WebsetData.is_complete := ApiData.is_complete apiData;
     WebsetData.progress := ApiData.progress apiData;
     WebsetData.items_found := Some (ApiData.items_found apiData);
     WebsetData.items_returned := Some (ApiData.items_returned apiData);
     WebsetData.message := Some (ApiData.message apiData);
     WebsetData.query :=
       js_or (WebsetData.query initialData) (WebsetData.query effective);
     WebsetData.entity_type :=
       js_or (WebsetData.entity_type initialData) (WebsetData.entity_type effective);
     WebsetData.external_id :=
       js_or (WebsetData.external_id initialData) (WebsetData.external_id effective);
     WebsetData.cost_deducted :=
       js_or (WebsetData.cost_deducted initialData) (WebsetData.cost_deducted effective);
     WebsetData.items := Some (mergedItems (existingItems r) (incomingItems apiData)) |}.

(** The part of [pollWebsetStatus] before the [await]: with a falsy
    [websetId] it warns and returns, otherwise the request is issued. *)
Definition pollWebsetStatus (r : Render.t) (h : Hook.t) : Hook.t :=
  if negb (truthy (Render.websetId r)) then h
  else Hook.setPending (Hook.pending h ++ [r]) h.

(** The part after the [await], run when the request settles. *)
Definition pollWebsetStatus_resume (r : Render.t) (o : Outcome) (h : Hook.t) : Hook.t :=
  match o with
  | Resolved response =>
      match success response, data response with
      | true, Some apiData =>
          let h := Hook.setLiveData (nextLiveData r apiData) h in
          let h :=
            if truthy (ApiData.is_complete apiData)
            then Hook.clearPollingInterval (Hook.setIsPolling false h)
            else h in
          Hook.setPollCount 0 h
      | _, _ => h                         (* console.warn only *)
      end
  | Rejected =>
      let h := Hook.setPollCount (S (Hook.pollCountRef h)) h in
      if bool_decide (10 ≤ Hook.pollCountRef h)
      then Hook.clearPollingInterval (Hook.setIsPolling false h)
      else h
  end.

(** ** The two effects *)

(** "Fetch initial data if we have a webset_id but no items" *)
Definition fetchInitialEffect (r : Render.t) (h : Hook.t) : Hook.t :=
  if truthy (Render.websetId r)
     && negb (truthy (Render.liveData r))
     && match WebsetData.items (Render.initialData r) with
        | Some l => bool_decide (length l = 0)
        | None => true
        end
     && negb (Render.isPolling r)
     && Render.enabled r
  then pollWebsetStatus r h
  else h.

Definition shouldPoll_of (r : Render.t) : option bool :=
  shouldPoll (Render.websetId r) (Render.enabled r) (Render.initialData r)
    (effectiveData (Render.liveData r) (Render.initialData r)).

(** "Start polling when webset is processing".  The early [return]
    registers no cleanup. *)
Definition pollingEffect (r : Render.t) (h : Hook.t) : Hook.t :=
  if negb (truthy (Render.websetId r)) || negb (Render.enabled r)
  then Hook.setCleanup false h
  else
    let h :=
      if truthy (shouldPoll_of r) && negb (Render.isPolling r)
         && negb (truthy (Hook.pollingIntervalRef h))
      then
        let h := Hook.setIsPolling true h in
        let h := Hook.setPollCount 0 h in
        let h := pollWebsetStatus r h in
        Hook.setInterval (Some r) h
      else if negb (truthy (shouldPoll_of r)) && truthy (Hook.pollingIntervalRef h)
      then Hook.clearPollingInterval (Hook.setIsPolling false h)
      else h in
    Hook.setCleanup true h.

(** The cleanup the polling effect returns. *)
Definition pollingCleanup (h : Hook.t) : Hook.t :=
  if Hook.cleanup h then Hook.clearPollingInterval h else h.

(** ** Commits and events

    React runs an effect after a commit when one of its dependencies has
    changed.  Both effects depend on [websetId], [enabled], [isPolling] and
    on [pollWebsetStatus], which is re-created whenever [websetId],
    [initialData] or [liveData] changes; so a commit that follows a change
    of props or of state runs the cleanup of the polling effect and then
    both effects, in the order they are declared.  An effect that sets
    state causes one more render and commit ([commit_two_passes] shows
    that the second one sets no state again).  [SetProps] stands for a
    render in which a prop has changed; an [initialData] object that is
    new counts as a change, also when its content is the same.  Unmounting
    ends the session and is not an event. *)

Definition effects (h : Hook.t) : Hook.t :=
  let r := Hook.current h in
  pollingEffect r (fetchInitialEffect r (pollingCleanup h)).

Definition commit (h : Hook.t) : Hook.t :=
  let h1 := effects h in
  if bool_decide (Hook.isPolling h1 = Hook.isPolling h) then h1 else effects h1.

(** The first render and commit of [useWebsetPolling({websetId, initialData,
    enabled})]. *)
Definition mount (websetId : option string) (initialData : WebsetData.t)
    (enabled : option bool) : Hook.t :=
  commit (Hook.mk (Render.mk websetId initialData (default true enabled) None false)
            None 0 false []).

Inductive Event :=
| SetProps (websetId : option string) (initialData : WebsetData.t)
    (enabled : option bool)          (* the caller renders with new props *)
| PollNow                            (* the caller invokes the returned [pollWebsetStatus] *)
| Tick                               (* the armed interval fires *)
| Settle (i : nat) (o : Outcome).    (* the [i]-th pending request settles *)

(** [setLiveData] always stores a fresh object; [setIsPolling] causes a
    render only when the value differs. *)
Definition rerenders (o : Outcome) (before after : Hook.t) : bool :=
  match o with
  | Resolved (mkResponse true (Some _)) => true
  | _ => negb (bool_decide (Hook.isPolling after = Hook.isPolling before))
  end.

Definition step (e : Event) (h : Hook.t) : Hook.t :=
  match e with
  | SetProps websetId initialData enabled =>
      commit (Hook.setProps websetId initialData enabled h)
  | PollNow => pollWebsetStatus (Hook.current h) h
  | Tick =>
      match Hook.pollingIntervalRef h with
      | Some r => pollWebsetStatus r h
      | None => h
      end
  | Settle i o =>
      match Hook.pending h !! i with
      | Some r =>
          let h' := pollWebsetStatus_resume r o (Hook.setPending (delete i (Hook.pending h)) h) in
          if rerenders o h h' then commit h' else h'
      | None => h
      end
  end.

Definition run (es : list Event) (h : Hook.t) : Hook.t :=
  foldl (λ h e, step e h) h es.

(** The sessions of the hook: what a mount followed by events can reach. *)
Definition reachable (h : Hook.t) : Prop :=
  ∃ websetId initialData enabled es, h = run es (mount websetId initialData enabled).

(** [effectiveData.items], read as the list the caller displays. *)
Definition effectiveItems (h : Hook.t) : list WebsetItem.t :=
  default []
    (WebsetData.items (effectiveData (Hook.liveData h) (Render.initialData (Hook.current h)))).

(** A successful envelope carrying [d]. *)
Definition okResponse (d : ApiData.t) : Outcome := Resolved (mkResponse true (Some d)).

(** ** The behaviour as described, to compare the code with *)

(** An incoming item is kept when its id is a non-empty string that no
    existing item carries. *)
Definition keeps (existing : list WebsetItem.t) (item : WebsetItem.t) : bool :=
  match WebsetItem.id item with
  | Some s =>
      bool_decide (s ≠ EmptyString)
      && bool_decide (Forall (λ x, WebsetItem.id x ≠ Some s) existing)
  | None => false
  end.

(** [merge(existingItems, incomingItems)] as the design describes it. *)
Definition merge_spec (existing incoming : list WebsetItem.t) : list WebsetItem.t :=
  existing ++ filter (λ item, keeps existing item) incoming.

(** The seed items with the unseen items of each batch appended, batch
    after batch. *)
Fixpoint accumulate (acc : list WebsetItem.t) (batches : list (list WebsetItem.t))
    : list WebsetItem.t :=
  match batches with
  | [] => acc
  | b :: bs => accumulate (merge_spec acc b) bs
  end.

(** One poll whose request is issued by the current [pollWebsetStatus] and
    whose successful response [d] is applied before anything else happens. *)
Definition pollEvents (h : Hook.t) (d : ApiData.t) : list Event :=
  [PollNow; Settle (length (Hook.pending h)) (okResponse d)].

(** Such polls one after the other. *)
Fixpoint run_polls (h : Hook.t) (ds : list ApiData.t) : Hook.t :=
  match ds with
  | [] => h
  | d :: ds => run_polls (run (pollEvents h d) h) ds
  end.

(** The render that differs from [r] in [isPolling] only. *)
Definition withPolling (b : bool) (r : Render.t) : Render.t :=
  Render.mk (Render.websetId r) (Render.initialData r) (Render.enabled r)
    (Render.liveData r) b.

(** Two renders that a [pollWebsetStatus] cannot tell apart. *)
Definition sameData (r r' : Render.t) : Prop :=
  Render.websetId r = Render.websetId r'
  ∧ Render.initialData r = Render.initialData r'
  ∧ Render.liveData r = Render.liveData r'.

(** Requests that fail one after the other; [rs] are the renders whose
    [pollWebsetStatus] awaited them. *)
Definition failures (rs : list Render.t) (h : Hook.t) : Hook.t :=
  foldl (λ h r, pollWebsetStatus_resume r Rejected h) h rs.

(** "An id, once present, is never removed", over all sessions. *)
Definition ids_never_removed : Prop :=
  ∀ h i d s,
    reachable h → is_Some (Hook.pending h !! i) →
    Some s ∈ WebsetItem.id <$> effectiveItems h →
    Some s ∈ WebsetItem.id <$> effectiveItems (step (Settle i (okResponse d)) h).

(** "A response for w1 that settles after the switch to w2 does not alter
    the live snapshot", over all sessions. *)
Definition stale_responses_ignored : Prop :=
  ∀ h i r o,
    reachable h → Hook.pending h !! i = Some r →
    Render.websetId r = Some "w1" →
    Render.websetId (Hook.current h) = Some "w2" →
    Hook.liveData (step (Settle i o) h) = Hook.liveData h.

(** "An envelope with success = false is counted as a thrown error is",
    over all sessions. *)
Definition unsuccessful_counts_as_failure : Prop :=
  ∀ h i r d,
    reachable h → Hook.pending h !! i = Some r →
    Hook.pollCountRef (pollWebsetStatus_resume r (Resolved (mkResponse false d)) h)
    = Hook.pollCountRef (pollWebsetStatus_resume r Rejected h).

(** The value of a passthrough field "from whichever snapshot most recently
    defined it, the seed as fallback". *)
Definition most_recent {A} (field : WebsetData.t → option A)
    (seed : WebsetData.t) (live : option WebsetData.t) : option A :=
  match live ≫= field with
  | Some v => Some v
  | None => field seed
  end.

Definition passthrough_from_latest : Prop :=
  ∀ h d,
    reachable h →
    let r := Hook.current h in
    let next := nextLiveData r d in
    let seed := Render.initialData r in
    let live := Render.liveData r in
    WebsetData.query next = most_recent WebsetData.query seed live
    ∧ WebsetData.entity_type next = most_recent WebsetData.entity_type seed live
    ∧ WebsetData.external_id next = most_recent WebsetData.external_id seed live
    ∧ WebsetData.cost_deducted next = most_recent WebsetData.cost_deducted seed live.

(** Sample values. *)
Definition sampleData (st : string) (complete : bool) (ids : list string) : ApiData.t :=
  ApiData.mk "w1" st None (Some (negb complete)) (Some complete) None 0 0
    (Some (WebsetItem.of_id <$> ids)) "ok".

(** The value the code gives a passthrough field: the seed's when that is
    a non-empty string; otherwise the prior live snapshot's when there is
    one; otherwise the seed's. *)
Definition seed_first (field : WebsetData.t → option string)
    (seed : WebsetData.t) (live : option WebsetData.t) : option string :=
  match field seed, live with
  | Some v, Some l => if decide (v = EmptyString) then field l else Some v
  | Some v, None => Some v
  | None, Some l => field l
  | None, None => None
  end.

(** [{status: "running", is_complete: true}] *)
Definition completedRunning : WebsetData.t :=
  WebsetData.mk None None None None (Some "running") None None None None None
    None (Some true) None None.

(** [{query: q}] *)
Definition seedWithQuery (q : string) : WebsetData.t :=
  WebsetData.mk None None (Some q) None None None None None None None
    None None None None.

(** The session right after the mount of
    [useWebsetPolling({websetId: w1, initialData: {}})]. *)
Definition mountedSession : Hook.t := mount (Some "w1") WebsetData.empty None.

(** A session in which a request issued for w1 is still pending after the
    caller has switched to w2. *)
Definition switchedSession : Hook.t :=
  run [SetProps (Some "w2") WebsetData.empty None]
    (mount (Some "w1") WebsetData.empty None).

(** A session in which the first of the two requests issued at mount has
    been answered with the items a and b. *)
Definition overlappedSession : Hook.t :=
  run [Settle 0 (okResponse (sampleData "running" false ["a"; "b"]))]
    (mount (Some "w1") WebsetData.empty None).

(** A session mounted with the seed [{query: b}], polled once, and then
    rendered with the seed [{query: a}]. *)
Definition reseededSession : Hook.t :=
  run [Settle 0 (okResponse (sampleData "running" false ["a"]));
       SetProps (Some "w1") (seedWithQuery "a") None]
    (mount (Some "w1") (seedWithQuery "b") None).

(** ** Further definitions *)

(** The condition under which the first effect calls [pollWebsetStatus]. *)
Definition fetchesInitial (r : Render.t) : bool :=
  truthy (Render.websetId r)
  && negb (truthy (Render.liveData r))
  && match WebsetData.items (Render.initialData r) with
     | Some l => bool_decide (length l = 0)
     | None => true
     end
  && negb (Render.isPolling r)
  && Render.enabled r.

(** The request a call of the [pollWebsetStatus] of [r] issues, if [b]. *)
Definition requests (b : bool) (r : Render.t) : list Render.t :=
  if b then [r] else [].

(** The snapshot [d] with another status string. *)
Definition withStatus (st : option string) (d : WebsetData.t) : WebsetData.t :=
  WebsetData.mk (WebsetData.webset_id d) (WebsetData.external_id d)
    (WebsetData.query d) (WebsetData.entity_type d) st
    (WebsetData.search_status d) (WebsetData.items_found d)
    (WebsetData.items_returned d) (WebsetData.cost_deducted d)
    (WebsetData.items d) (WebsetData.is_processing d)
    (WebsetData.is_complete d) (WebsetData.progress d) (WebsetData.message d).

(** [toggleExpand] of WebsetsToolView, the caller of the hook: the new set
    of expanded rows handed to [setExpandedRows]. *)
Definition toggleExpand (expandedRows : gset string) (itemId : string) : gset string :=
  if decide (itemId ∈ expandedRows)
  then expandedRows ∖ {[itemId]}
  else expandedRows ∪ {[itemId]}.

(** A payload that says the job is complete and carries no
    [is_processing]: [{status: st, is_complete: true, items: ...}]. *)
Definition unflaggedData (st : string) (ids : list string) : ApiData.t :=
  ApiData.mk "w1" st None None (Some true) None 0 0
    (Some (WebsetItem.of_id <$> ids)) "ok".

(** A session in which nine requests have failed in a row and one is
    still pending. *)
Definition nineFailedSession : Hook.t :=
  run (replicate 8 PollNow ++ replicate 9 (Settle 0 Rejected)) mountedSession.

(** * Properties *)

(** ** Merging *)

Section MergeFacts.
Implicit Types existing incoming : list WebsetItem.t.
Implicit Types item : WebsetItem.t.

Lemma elem_of_existingItemIds existing (x : option string) :
  x ∈ existingItemIds existing ↔ x ∈ WebsetItem.id <$> existing.
Proof. unfold existingItemIds. apply elem_of_list_to_set. Qed.

Lemma keeps_iff existing item :
  keeps existing item
  ↔ truthy (WebsetItem.id item) ∧ WebsetItem.id item ∉ existingItemIds existing.
Proof.
  unfold keeps. rewrite elem_of_existingItemIds.
  destruct (WebsetItem.id item) as [s|] eqn:Hid; simpl.
  - cbv [truthy truthy_option truthy_string].
    rewrite andb_True, !bool_decide_spec, Forall_forall.
    split; intros [Hs Hex]; split; try done.
    + rewrite list_elem_of_fmap. intros (x & Hx & Hin). by eapply Hex.
    + intros x Hin Hx. apply Hex, list_elem_of_fmap. eauto.
  - split; [done | by intros []].
Qed.

Lemma newItems_keeps existing incoming :
  newItems existing incoming = filter (λ item, keeps existing item) incoming.
Proof.
  unfold newItems. apply list_filter_iff. intros item.
  symmetry. apply keeps_iff.
Qed.

Lemma mergedItems_spec existing incoming :
  mergedItems existing incoming = merge_spec existing incoming.
Proof. unfold mergedItems, merge_spec. by rewrite newItems_keeps. Qed.

Lemma filter_none {A} (P : A → Prop) `{∀ x, Decision (P x)} (l : list A) :
  (∀ x, x ∈ l → ¬ P x) → filter P l = [].
Proof.
  induction l as [|a l IH]; intros Hl; [done|].
  rewrite filter_cons_False by (apply Hl; left).
  apply IH. intros x Hx. apply Hl. by right.
Qed.

(** Nothing of a batch is new once the batch has been merged. *)
Lemma newItems_merged existing incoming :
  newItems (mergedItems existing incoming) incoming = [].
Proof.
  apply filter_none. intros item Hin [Htruthy Hnew].
  apply Hnew, elem_of_existingItemIds, list_elem_of_fmap.
  destruct (decide (WebsetItem.id item ∈ existingItemIds existing)) as [Hold|Hfresh].
  - apply elem_of_existingItemIds, list_elem_of_fmap in Hold as (x & Hx & Hxin).
    exists x. split; [done|]. unfold mergedItems. apply elem_of_app. by left.
  - exists item. split; [done|]. unfold mergedItems. apply elem_of_app. right.
    unfold newItems. apply list_elem_of_filter. done.
Qed.

Lemma mergedItems_idem existing incoming :
  mergedItems (mergedItems existing incoming) incoming = mergedItems existing incoming.
Proof.
  unfold mergedItems at 1. rewrite newItems_merged. apply app_nil_r.
Qed.
End MergeFacts.

(** C2.  Merging returns the existing items followed by exactly the incoming
    items whose id is a non-empty string that no existing item carries, in
    their incoming order; the function is total, so nothing is raised; every
    appended item has a non-empty id, so incoming items whose id is missing
    or empty are dropped; and
    merge([{id:1}], [{id:2},{id:1},{id:3}]) = [{id:1},{id:2},{id:3}]. *)
Theorem merge_appends_unseen (existing incoming : list WebsetItem.t) :
  mergedItems existing incoming
  = existing ++ filter (λ item, keeps existing item) incoming
  ∧ Forall (λ item, ∃ s, WebsetItem.id item = Some s ∧ s ≠ EmptyString)
      (newItems existing incoming)
  ∧ mergedItems [WebsetItem.of_id "1"]
      [WebsetItem.of_id "2"; WebsetItem.of_id "1"; WebsetItem.of_id "3"]
    = [WebsetItem.of_id "1"; WebsetItem.of_id "2"; WebsetItem.of_id "3"].
Proof.
  split; [apply mergedItems_spec|]. split; [|by vm_compute].
  apply Forall_forall. intros item [[Hid _] _]%list_elem_of_filter.
  destruct (WebsetItem.id item) as [s|]; [|done].
  exists s. split; [done|]. by apply bool_decide_spec in Hid.
Qed.

(** C3.  Merging a batch a second time changes nothing:
    merge(merge(A, B), B) = merge(A, B); so a second poll that returns the
    same response as the poll just applied leaves the items, and their
    number, as they are. *)
Theorem merge_idempotent (A B : list WebsetItem.t) (r : Render.t) (d : ApiData.t)
    (websetId : option string) (initialData : WebsetData.t) (enabled isPolling : bool) :
  mergedItems (mergedItems A B) B = mergedItems A B
  ∧ let once := nextLiveData r d in
    let twice :=
      nextLiveData (Render.mk websetId initialData enabled (Some once) isPolling) d in
    WebsetData.items twice = WebsetData.items once
    ∧ length <$> WebsetData.items twice = length <$> WebsetData.items once.
Proof.
  split; [apply mergedItems_idem|].
  assert (WebsetData.items
            (nextLiveData (Render.mk websetId initialData enabled
                             (Some (nextLiveData r d)) isPolling) d)
          = WebsetData.items (nextLiveData r d)) as Heq.
  { simpl. f_equal. apply mergedItems_idem. }
  cbv zeta. by rewrite Heq.
Qed.

(** C10.  One merge removes duplicates against the existing items only: when
    an id is a non-empty string that no existing item carries, every
    incoming item with that id is appended, so with two or more of them the
    merged sequence has a repeated id. *)
Theorem merge_keeps_duplicates_within_batch
    (existing incoming : list WebsetItem.t) (s : string) :
  s ≠ EmptyString →
  Some s ∉ WebsetItem.id <$> existing →
  filter (λ item, WebsetItem.id item = Some s) (mergedItems existing incoming)
  = filter (λ item, WebsetItem.id item = Some s) incoming
  ∧ (2 ≤ length (filter (λ item, WebsetItem.id item = Some s) incoming) →
     ¬ NoDup (WebsetItem.id <$> mergedItems existing incoming)).
Proof.
  intros Hs Hfresh.
  assert (filter (λ item, WebsetItem.id item = Some s) (mergedItems existing incoming)
          = filter (λ item, WebsetItem.id item = Some s) incoming) as Heq.
  { unfold mergedItems. rewrite filter_app.
    rewrite (filter_none _ existing); simpl.
    - unfold newItems. rewrite list_filter_filter. apply list_filter_iff.
      intros item. split; [by intros [? _]|]. intros Hid. split; [done|].
      rewrite Hid. split.
      + cbv [truthy truthy_option truthy_string]. by apply bool_decide_spec.
      + by rewrite elem_of_existingItemIds.
    - intros x Hx Hid. apply Hfresh, list_elem_of_fmap. eauto. }
  split; [done|]. rewrite <- Heq. clear Heq.
  generalize (mergedItems existing incoming). intros l Hlen Hnodup.
  induction l as [|a l IH]; simpl in *; [lia|].
  apply NoDup_cons in Hnodup as [Ha Hnodup].
  rewrite filter_cons in Hlen. case_decide as Hid; simpl in *.
  - destruct (filter (λ item, WebsetItem.id item = Some s) l) as [|b l'] eqn:Hf;
      simpl in *; [lia|].
    assert (b ∈ filter (λ item, WebsetItem.id item = Some s) l) as Hb
      by (rewrite Hf; left).
    apply list_elem_of_filter in Hb as [Hbid Hbin].
    apply Ha. rewrite Hid, <- Hbid. by apply list_elem_of_fmap_2.
  - by apply IH.
Qed.

Lemma merge_keeps_duplicates_within_batch_witness :
  filter (λ item, WebsetItem.id item = Some "a")
    (mergedItems [WebsetItem.of_id "b"] [WebsetItem.of_id "a"; WebsetItem.of_id "a"])
  = filter (λ item, WebsetItem.id item = Some "a")
      [WebsetItem.of_id "a"; WebsetItem.of_id "a"]
  ∧ ¬ NoDup (WebsetItem.id <$>
       mergedItems [WebsetItem.of_id "b"] [WebsetItem.of_id "a"; WebsetItem.of_id "a"]).
Proof.
  destruct (merge_keeps_duplicates_within_batch
              [WebsetItem.of_id "b"] [WebsetItem.of_id "a"; WebsetItem.of_id "a"] "a")
    as [Heq Hdup].
  - discriminate.
  - vm_compute. intros H. repeat (apply elem_of_cons in H as [H|H]; [discriminate|]).
    by apply elem_of_nil in H.
  - split; [exact Heq|]. apply Hdup. vm_compute. lia.
Defined.

(** ** The polling decision *)

(** C4, as stated, fails: with no [is_processing] flag anywhere, a live
    snapshot that is complete and whose status is "running" is polled. *)
Lemma shouldPoll_complete_running :
  WebsetData.is_complete completedRunning = Some true
  ∧ shouldPoll (Some "w1") true WebsetData.empty
      (effectiveData (Some completedRunning) WebsetData.empty) = Some true.
Proof. by vm_compute. Qed.

(** C4, amended.  With a live snapshot that is complete, a non-null
    [websetId] and [enabled = true]: when the seed or the live snapshot
    defines [is_processing], [shouldPoll] is falsy ([false] or [undefined])
    whatever the status string; when neither does, [shouldPoll] is [true]
    exactly when [websetId] is non-empty and the status string (the live
    one, else the seed's) is "running" or "pending", and [false] otherwise. *)
Theorem shouldPoll_when_complete (w : string) (seed live : WebsetData.t) :
  WebsetData.is_complete live = Some true →
  let sp := shouldPoll (Some w) true seed (effectiveData (Some live) seed) in
  let status := js_or (WebsetData.status live) (WebsetData.status seed) in
  (WebsetData.is_processing seed ≠ None ∨ WebsetData.is_processing live ≠ None →
   truthy sp = false)
  ∧ (WebsetData.is_processing seed = None →
     WebsetData.is_processing live = None →
     sp = Some (truthy w
                && bool_decide (status = Some "running" ∨ status = Some "pending"))).
Proof.
  intros Hcomplete. cbv zeta. unfold shouldPoll, effectiveData. simpl.
  rewrite Hcomplete. split.
  - intros Hflag.
    destruct (WebsetData.is_processing seed) as [[]|],
             (WebsetData.is_processing live) as [[]|];
      try (by destruct Hflag); by repeat case_match.
  - intros -> ->. simpl.
    cbv [truthy truthy_option truthy_string truthy_bool].
    destruct (decide (w = EmptyString)) as [->|Hw]; [done|].
    rewrite (bool_decide_eq_true_2 _ Hw). simpl.
    unfold js_or, includes.
    cbv [truthy truthy_option truthy_string truthy_bool].
    destruct (WebsetData.status live) as [s|], (WebsetData.status seed) as [s'|];
      simpl; repeat case_bool_decide; simpl; try done;
      repeat match goal with
        | H : _ ∈ _ |- _ => apply elem_of_cons in H as [H|H]
        | H : _ ∈ [] |- _ => by apply elem_of_nil in H
        | H : _ ∨ _ |- _ => destruct H
        | H : Some _ = Some _ |- _ => injection H as H
        end; subst; try done;
      try (exfalso; match goal with H : ¬ (_ ∨ _) |- _ => apply H end; by eauto);
      try (exfalso; match goal with H : _ ∉ _ |- _ => apply H end;
           repeat constructor).
Qed.

(** A complete live snapshot with [is_processing] set and the status
    "running" is not polled; without the flag, it is. *)
Lemma shouldPoll_when_complete_witness :
  let flagged :=
    WebsetData.mk None None None None (Some "running") None None None None None
      (Some true) (Some true) None None in
  truthy (shouldPoll (Some "w1") true WebsetData.empty
            (effectiveData (Some flagged) WebsetData.empty)) = false
  ∧ shouldPoll (Some "w1") true WebsetData.empty
      (effectiveData (Some completedRunning) WebsetData.empty) = Some true.
Proof.
  cbv zeta. split.
  - apply (shouldPoll_when_complete "w1" WebsetData.empty); [done|].
    right. discriminate.
  - by destruct (shouldPoll_when_complete "w1" WebsetData.empty completedRunning eq_refl)
      as [_ ->].
Defined.

(** C9, as stated, fails for the empty string, which is a non-null
    [websetId]: the first guard [!websetId] answers [false]. *)
Lemma shouldPoll_empty_id :
  shouldPoll (Some EmptyString) true WebsetData.empty
    (effectiveData None WebsetData.empty) = Some false.
Proof. by vm_compute. Qed.

(** C9, amended.  For every non-null and non-empty [websetId], with
    [enabled = true], no live snapshot, a seed that defines neither
    [is_processing] nor [status] and whose [is_complete] is not [true],
    [shouldPoll] is [true]. *)
Theorem shouldPoll_bootstrap (w : string) (seed : WebsetData.t) :
  w ≠ EmptyString →
  WebsetData.is_processing seed = None →
  WebsetData.status seed = None →
  WebsetData.is_complete seed ≠ Some true →
  shouldPoll (Some w) true seed (effectiveData None seed) = Some true.
Proof.
  intros Hw Hproc Hstatus Hcomplete.
  unfold shouldPoll, effectiveData. simpl. rewrite Hproc, Hstatus. simpl.
  cbv [truthy truthy_option truthy_string truthy_bool].
  rewrite (bool_decide_eq_true_2 _ Hw). simpl.
  by destruct (WebsetData.is_complete seed) as [[]|].
Qed.

(** The instance named in the claim: websetId = w1, seed = {}, no live
    snapshot, enabled. *)
Lemma shouldPoll_bootstrap_w1 :
  shouldPoll (Some "w1") true WebsetData.empty (effectiveData None WebsetData.empty)
  = Some true.
Proof. by apply (shouldPoll_bootstrap "w1" WebsetData.empty). Defined.

(** ** The failure budget *)

Section Failures.
Implicit Types (h : Hook.t) (r : Render.t) (rs : list Render.t).

Lemma rejected_count r h :
  Hook.pollCountRef (pollWebsetStatus_resume r Rejected h) = S (Hook.pollCountRef h).
Proof. simpl. by case_bool_decide. Qed.

Lemma rejected_below r h :
  S (Hook.pollCountRef h) < 10 →
  pollWebsetStatus_resume r Rejected h
  = Hook.setPollCount (S (Hook.pollCountRef h)) h.
Proof. intros Hlt. simpl. case_bool_decide; [lia|done]. Qed.

Lemma rejected_exhausted r h :
  10 ≤ S (Hook.pollCountRef h) →
  Hook.isPolling (pollWebsetStatus_resume r Rejected h) = false
  ∧ Hook.pollingIntervalRef (pollWebsetStatus_resume r Rejected h) = None.
Proof. intros Hge. simpl. case_bool_decide; [done|lia]. Qed.

Lemma failures_snoc rs r h :
  failures (rs ++ [r]) h = pollWebsetStatus_resume r Rejected (failures rs h).
Proof. unfold failures. by rewrite foldl_snoc. Qed.

Lemma failures_count rs h :
  Hook.pollCountRef (failures rs h) = Hook.pollCountRef h + length rs.
Proof.
  induction rs as [|r rs IH] using rev_ind; [simpl; lia|].
  rewrite failures_snoc, rejected_count, IH, length_app. simpl. lia.
Qed.

Lemma failures_below rs h :
  Hook.pollCountRef h + length rs < 10 →
  Hook.isPolling (failures rs h) = Hook.isPolling h
  ∧ Hook.pollingIntervalRef (failures rs h) = Hook.pollingIntervalRef h.
Proof.
  induction rs as [|r rs IH] using rev_ind; [done|].
  rewrite length_app. simpl. intros Hlt.
  rewrite failures_snoc, rejected_below by (rewrite failures_count; lia).
  destruct IH as [IH1 IH2]; [lia|]. by rewrite <- IH1, <- IH2.
Qed.

Lemma failures_exhausted rs h :
  rs ≠ [] → 10 ≤ Hook.pollCountRef h + length rs →
  Hook.isPolling (failures rs h) = false
  ∧ Hook.pollingIntervalRef (failures rs h) = None.
Proof.
  destruct rs as [|r rs _] using rev_ind; [done|]. intros _.
  rewrite length_app. simpl. intros Hge.
  rewrite failures_snoc. apply rejected_exhausted.
  rewrite failures_count. lia.
Qed.
End Failures.

(** The handler on its own, before any render.  Thrown errors are counted,
    and a successful response resets the counter to 0.  Starting from a
    counter of 0, fewer than 10 consecutive failures leave [isPolling] and
    the timer as they were; the handler of the failure that brings the
    counter to 10 sets [isPolling] to false and clears the timer. *)
Lemma failure_budget (rs : list Render.t) (r : Render.t) (d : ApiData.t) (h : Hook.t) :
  Hook.pollCountRef h = 0 →
  let h' := failures rs h in
  Hook.pollCountRef h' = length rs
  ∧ Hook.pollCountRef (pollWebsetStatus_resume r (okResponse d) h') = 0
  ∧ (length rs < 10 →
     Hook.isPolling h' = Hook.isPolling h
     ∧ Hook.pollingIntervalRef h' = Hook.pollingIntervalRef h)
  ∧ (length rs = 10 →
     Hook.isPolling h' = false ∧ Hook.pollingIntervalRef h' = None).
Proof.
  intros Hzero. cbv zeta. split; [|split; [|split]].
  - rewrite failures_count. lia.
  - unfold okResponse. simpl. by destruct (truthy (ApiData.is_complete d)).
  - intros Hlt. apply failures_below. lia.
  - intros Hlen. apply failures_exhausted; [by intros ->|lia].
Qed.

(** C5.  The stop after ten consecutive failures does not hold in a
    session.  Mount with the id w1 and the seed [{}], let the caller call
    [pollWebsetStatus] eight times, and let the ten requests throw one
    after the other.  After nine failures the counter is 9 and [isPolling]
    is true.  The handler of the tenth sets [isPolling] to false, and the
    render this causes runs the polling effect, which finds [shouldPoll]
    truthy and [isPolling] false: polling starts again, so after the tenth
    failure [isPolling] is true, the counter is 0 and two new requests are
    pending. *)
Lemma tenth_failure_restarts_polling :
  let h9 := nineFailedSession in
  let h10 := step (Settle 0 Rejected) nineFailedSession in
  (Hook.isPolling h9 = true ∧ Hook.pollCountRef h9 = 9
   ∧ length (Hook.pending h9) = 1)
  ∧ (Hook.isPolling h10 = true ∧ Hook.pollCountRef h10 = 0
     ∧ length (Hook.pending h10) = 2).
Proof. vm_compute. by repeat split. Qed.

(** C6, as stated, fails: when one of the requests issued at mount is
    answered by an envelope with success = false, the counter stays at 0,
    where a thrown error makes it 1. *)
Lemma unsuccessful_not_counted :
  ¬ unsuccessful_counts_as_failure.
Proof.
  intros Hclaim.
  specialize (Hclaim mountedSession 0
                (Render.mk (Some "w1") WebsetData.empty true None false) None).
  assert (0 = 1) as Habsurd; [|discriminate].
  apply Hclaim; [|done].
  by exists (Some "w1"), WebsetData.empty, None, [].
Qed.

(** C6, amended.  A response whose envelope has success = false (or that
    carries no data) is only logged: the counter, [isPolling], the timer
    and the live snapshot stay as they are, and no render follows; in the
    session only the request stops being pending.  It neither increments
    nor resets the counter; a thrown error increments it. *)
Theorem unsuccessful_response_ignored (r : Render.t) (h : Hook.t) (i : nat)
    (d : option ApiData.t) (ok : bool) :
  pollWebsetStatus_resume r (Resolved (mkResponse false d)) h = h
  ∧ pollWebsetStatus_resume r (Resolved (mkResponse ok None)) h = h
  ∧ step (Settle i (Resolved (mkResponse false d))) h
    = match Hook.pending h !! i with
      | Some _ => Hook.setPending (delete i (Hook.pending h)) h
      | None => h
      end
  ∧ Hook.pollCountRef (pollWebsetStatus_resume r Rejected h) = S (Hook.pollCountRef h).
Proof.
  split; [done|]. split; [by destruct ok|]. split; [|apply rejected_count].
  simpl. destruct (Hook.pending h !! i) as [r'|]; [|done]. simpl.
  by rewrite bool_decide_eq_true_2.
Qed.

(** ** Sessions *)

Section Sessions.
Implicit Types (h : Hook.t) (r : Render.t) (d : ApiData.t).

(** The effects set [isPolling], the refs and the pending requests, and
    nothing else. *)
Lemma pollWebsetStatus_current r h :
  Hook.current (pollWebsetStatus r h) = Hook.current h.
Proof. unfold pollWebsetStatus. by case_match. Qed.

Lemma effects_sameData h :
  sameData (Hook.current (effects h)) (Hook.current h).
Proof.
  unfold effects, pollingEffect, fetchInitialEffect, pollingCleanup, pollWebsetStatus.
  repeat case_match; by simpl.
Qed.

Lemma commit_sameData h :
  sameData (Hook.current (commit h)) (Hook.current h).
Proof.
  unfold commit. case_bool_decide; [apply effects_sameData|].
  destruct (effects_sameData (effects h)) as (? & ? & ?).
  destruct (effects_sameData h) as (? & ? & ?).
  repeat split; congruence.
Qed.

Lemma commit_liveData h : Hook.liveData (commit h) = Hook.liveData h.
Proof. apply commit_sameData. Qed.

Lemma shouldPoll_of_withPolling b r : shouldPoll_of (withPolling b r) = shouldPoll_of r.
Proof. done. Qed.

(** What the polling effect does to [isPolling]. *)
Lemma pollingEffect_isPolling r h :
  Hook.isPolling (pollingEffect r h)
  = if negb (truthy (Render.websetId r)) || negb (Render.enabled r)
    then Hook.isPolling h
    else if truthy (shouldPoll_of r) && negb (Render.isPolling r)
            && negb (truthy (Hook.pollingIntervalRef h))
    then true
    else if negb (truthy (shouldPoll_of r)) && truthy (Hook.pollingIntervalRef h)
    then false
    else Hook.isPolling h.
Proof.
  unfold pollingEffect, pollWebsetStatus.
  destruct (negb (truthy (Render.websetId r))) eqn:Hw; simpl; [done|].
  destruct (negb (Render.enabled r)); simpl; [done|].
  destruct (truthy (shouldPoll_of r)), (Render.isPolling r),
    (truthy (Hook.pollingIntervalRef h)); simpl; try done.
Qed.

Lemma effects_current h :
  Hook.current (effects h) = withPolling (Hook.isPolling (effects h)) (Hook.current h).
Proof.
  destruct h as [[w seed en live polling] timer count cl pend].
  unfold effects, pollingEffect, fetchInitialEffect, pollingCleanup, pollWebsetStatus.
  simpl.
  repeat (match goal with
          | |- context [if ?b then _ else _] => destruct b eqn:?
          end; simpl; try done).
Qed.

Lemma fetchInitialEffect_frame r h :
  Hook.isPolling (fetchInitialEffect r h) = Hook.isPolling h
  ∧ Hook.pollingIntervalRef (fetchInitialEffect r h) = Hook.pollingIntervalRef h
  ∧ Hook.cleanup (fetchInitialEffect r h) = Hook.cleanup h.
Proof. unfold fetchInitialEffect, pollWebsetStatus. by repeat case_match. Qed.

Lemma pollingCleanup_frame h :
  Hook.isPolling (pollingCleanup h) = Hook.isPolling h
  ∧ Hook.pollingIntervalRef (pollingCleanup h)
    = (if Hook.cleanup h then None else Hook.pollingIntervalRef h).
Proof. unfold pollingCleanup. by case_match. Qed.

Lemma pollingEffect_cleanup r h :
  Hook.cleanup (pollingEffect r h)
  = negb (negb (truthy (Render.websetId r)) || negb (Render.enabled r)).
Proof. unfold pollingEffect. by case_match. Qed.

(** The render caused by an effect that set [isPolling] sets no state
    again: the two passes of [commit] are all there is. *)
Lemma commit_two_passes h :
  Hook.isPolling (effects h) ≠ Hook.isPolling h →
  Hook.isPolling (effects (effects h)) = Hook.isPolling (effects h).
Proof.
  intros Hchanged.
  assert (Hook.isPolling (effects h)
          = Hook.isPolling (pollingEffect (Hook.current h)
              (fetchInitialEffect (Hook.current h) (pollingCleanup h)))) as Hfirst by done.
  rewrite pollingEffect_isPolling in Hfirst.
  destruct (fetchInitialEffect_frame (Hook.current h) (pollingCleanup h))
    as (Hp0 & Ht0 & _).
  destruct (pollingCleanup_frame h) as (Hp1 & _).
  rewrite Hp0, Hp1 in Hfirst.
  assert (Hook.cleanup (effects h)
          = negb (negb (truthy (Render.websetId (Hook.current h)))
                  || negb (Render.enabled (Hook.current h)))) as Hcl
    by apply pollingEffect_cleanup.
  unfold effects at 1.
  rewrite pollingEffect_isPolling.
  destruct (fetchInitialEffect_frame (Hook.current (effects h)) (pollingCleanup (effects h)))
    as (-> & -> & _).
  destruct (pollingCleanup_frame (effects h)) as (-> & ->).
  rewrite Hcl, (effects_current h), shouldPoll_of_withPolling. simpl.
  destruct (negb (truthy (Render.websetId (Hook.current h)))
            || negb (Render.enabled (Hook.current h))); simpl in *; [done|].
  destruct (truthy (shouldPoll_of (Hook.current h))); simpl in *.
  - destruct (Render.isPolling (Hook.current h)) eqn:Hp; simpl in *;
      [by rewrite Hfirst in Hchanged|].
    destruct (truthy (Hook.pollingIntervalRef _)); simpl in *;
      [by rewrite Hfirst in Hchanged|]. by rewrite Hfirst.
  - done.
Qed.
(** What a settling request does to the live snapshot: a successful
    response replaces it, anything else leaves it. *)
Lemma settle_liveData h i r o :
  Hook.pending h !! i = Some r →
  Hook.liveData (step (Settle i o) h)
  = match o with
    | Resolved (mkResponse true (Some d)) => Some (nextLiveData r d)
    | _ => Hook.liveData h
    end.
Proof.
  intros Hr. simpl. rewrite Hr.
  destruct o as [[[] [d|]]|]; simpl.
  - rewrite commit_liveData. by destruct (truthy (ApiData.is_complete d)).
  - case_match; by rewrite ?commit_liveData.
  - case_match; by rewrite ?commit_liveData.
  - case_match; by rewrite ?commit_liveData.
  - case_match; rewrite ?commit_liveData;
      by destruct (bool_decide (10 ≤ S (Hook.pollCountRef h))).
Qed.

Lemma settle_props h i o :
  Render.websetId (Hook.current (step (Settle i o) h)) = Render.websetId (Hook.current h)
  ∧ Render.initialData (Hook.current (step (Settle i o) h))
    = Render.initialData (Hook.current h).
Proof.
  simpl. destruct (Hook.pending h !! i) as [r|]; [|done].
  assert (∀ h', Render.websetId (Hook.current h') = Render.websetId (Hook.current h)
                ∧ Render.initialData (Hook.current h') = Render.initialData (Hook.current h)
                → Render.websetId (Hook.current (commit h')) = Render.websetId (Hook.current h)
                  ∧ Render.initialData (Hook.current (commit h'))
                    = Render.initialData (Hook.current h)) as Hcommit.
  { intros h' [? ?]. destruct (commit_sameData h') as (? & ? & _).
    split; congruence. }
  destruct o as [[[] [d|]]|]; simpl.
  - apply Hcommit. by destruct (truthy (ApiData.is_complete d)).
  - case_match; [by apply Hcommit|done].
  - case_match; [by apply Hcommit|done].
  - case_match; [by apply Hcommit|done].
  - case_match; [apply Hcommit|];
      by destruct (bool_decide (10 ≤ S (Hook.pollCountRef h))).
Qed.

(** One poll issued by the current [pollWebsetStatus] and applied at
    once. *)
Lemma poll_applied h d :
  truthy (Render.websetId (Hook.current h)) →
  let h' := run (pollEvents h d) h in
  Hook.liveData h' = Some (nextLiveData (Hook.current h) d)
  ∧ Render.websetId (Hook.current h') = Render.websetId (Hook.current h)
  ∧ Render.initialData (Hook.current h') = Render.initialData (Hook.current h).
Proof.
  intros Hid. cbv zeta.
  assert (step PollNow h = Hook.setPending (Hook.pending h ++ [Hook.current h]) h)
    as Hnow.
  { simpl. unfold pollWebsetStatus. by destruct (truthy _). }
  change (run (pollEvents h d) h)
    with (step (Settle (length (Hook.pending h)) (okResponse d)) (step PollNow h)).
  rewrite Hnow. split.
  - erewrite settle_liveData; [done|]. simpl.
    by rewrite lookup_app_r, Nat.sub_diag.
  - apply (settle_props (Hook.setPending _ h)).
Qed.
End Sessions.

Section Accumulation.
Implicit Types (h : Hook.t) (d : ApiData.t) (ds : list ApiData.t).

Lemma accumulate_prefix acc batches : acc `prefix_of` accumulate acc batches.
Proof.
  revert acc. induction batches as [|b bs IH]; intros acc; [done|].
  simpl. etrans; [|apply IH]. unfold merge_spec. by apply prefix_app_r.
Qed.

Lemma run_polls_app h ds ds' :
  run_polls h (ds ++ ds') = run_polls (run_polls h ds) ds'.
Proof. revert h. induction ds as [|d ds IH]; intros h; [done|]. simpl. apply IH. Qed.

(** While every response is applied by the [pollWebsetStatus] of the
    render that follows the previous response, the items shown are the
    items the next merge starts from. *)
Lemma run_polls_items h ds :
  truthy (Render.websetId (Hook.current h)) →
  effectiveItems h = existingItems (Hook.current h) →
  effectiveItems (run_polls h ds)
  = accumulate (effectiveItems h) (incomingItems <$> ds).
Proof.
  revert h. induction ds as [|d ds IH]; intros h Hid Hitems; [done|].
  destruct (poll_applied h d Hid) as (Hlive & Hw & Hseed).
  change (run_polls h (d :: ds)) with (run_polls (run (pollEvents h d) h) ds).
  remember (run (pollEvents h d) h) as h1 eqn:Hh1. clear Hh1.
  rewrite fmap_cons.
  change (accumulate (effectiveItems h) (incomingItems d :: (incomingItems <$> ds)))
    with (accumulate (merge_spec (effectiveItems h) (incomingItems d))
            (incomingItems <$> ds)).
  rewrite IH.
  - f_equal. unfold effectiveItems at 1. rewrite Hlive. simpl.
    by rewrite Hitems, mergedItems_spec.
  - by rewrite Hw.
  - unfold effectiveItems, existingItems, Hook.liveData in *.
    rewrite !Hlive. by simpl.
Qed.

Lemma mount_items (w : option string) seed enabled :
  Render.websetId (Hook.current (mount w seed enabled)) = w
  ∧ effectiveItems (mount w seed enabled) = default [] (WebsetData.items seed)
  ∧ existingItems (Hook.current (mount w seed enabled))
    = default [] (WebsetData.items seed).
Proof.
  unfold mount.
  destruct (commit_sameData
              (Hook.mk (Render.mk w seed (default true enabled) None false)
                 None 0 false [])) as (Hw & Hseed & Hlive).
  simpl in *. split; [done|].
  unfold effectiveItems, existingItems, Hook.liveData.
  rewrite Hlive, Hseed. simpl. split; [done|].
  by destruct (WebsetData.items seed).
Qed.
End Accumulation.

(** The scenario of the design: the seed [{items: []}]; a poll that returns
    a with the job running leaves one item and [isPolling] true; a poll
    that returns a and b with the job complete leaves the two items,
    [isPolling] false and no timer. *)
Example end_to_end :
  let seed :=
    WebsetData.mk None None None None None None None None None (Some [])
      None None None None in
  let h1 := run_polls (mount (Some "w1") seed None) [sampleData "running" false ["a"]] in
  let h2 := run_polls h1 [sampleData "running" true ["a"; "b"]] in
  (effectiveItems h1 = [WebsetItem.of_id "a"] ∧ Hook.isPolling h1 = true)
  ∧ (effectiveItems h2 = [WebsetItem.of_id "a"; WebsetItem.of_id "b"]
     ∧ Hook.isPolling h2 = false ∧ Hook.pollingIntervalRef h2 = None).
Proof. by vm_compute. Qed.

(** C1.  The code loses an item that was present.  The two effects both
    call [pollWebsetStatus] in the first commit, so two requests are
    pending that both captured [liveData = null]; when the first is
    answered with a and b and the second with a alone, the second handler
    merges into the items it captured, the seed's, and stores a alone: b,
    present after the first response, is gone.  The merge is meant to
    extend [liveData?.items]; it extends a stale copy. *)
Lemma overlapping_polls_lose_items :
  ¬ ids_never_removed.
Proof.
  intros Hclaim.
  specialize (Hclaim overlappedSession 0 (sampleData "running" false ["a"]) "b").
  assert (Some "b" ∈ WebsetItem.id <$>
            effectiveItems (step (Settle 0 (okResponse (sampleData "running" false ["a"])))
                              overlappedSession)) as Hb.
  { apply Hclaim.
    - by eexists _, _, _, _.
    - vm_compute. by eexists.
    - vm_compute. right. left. }
  vm_compute in Hb. apply elem_of_cons in Hb as [Hb|Hb]; [discriminate|].
  by apply elem_of_nil in Hb.
Qed.

(** Polls driven by the caller alone.  When the caller calls
    [pollWebsetStatus] and each response is applied before the next call,
    while the requests the effects issued stay pending, the items shown
    are the seed items with the unseen items of each response appended,
    response after response, and what is shown after some responses is a
    prefix of what is shown after more of them. *)
Lemma items_accumulate (w : string) (seed : WebsetData.t) (enabled : option bool)
    (ds ds' : list ApiData.t) :
  w ≠ EmptyString →
  let h0 := mount (Some w) seed enabled in
  effectiveItems (run_polls h0 ds)
  = accumulate (default [] (WebsetData.items seed)) (incomingItems <$> ds)
  ∧ effectiveItems (run_polls h0 ds) `prefix_of` effectiveItems (run_polls h0 (ds ++ ds')).
Proof.
  intros Hw. cbv zeta.
  destruct (mount_items (Some w) seed enabled) as (Hid & Hshown & Hexisting).
  assert (truthy (Render.websetId (Hook.current (mount (Some w) seed enabled))))
    as Htruthy.
  { rewrite Hid. cbv [truthy truthy_option truthy_string].
    by apply bool_decide_spec. }
  assert (∀ l, effectiveItems (run_polls (mount (Some w) seed enabled) l)
               = accumulate (default [] (WebsetData.items seed)) (incomingItems <$> l))
    as Hrun.
  { intros l. rewrite run_polls_items, Hshown; [done|done|]. by rewrite Hexisting. }
  split; [apply Hrun|].
  rewrite !Hrun, fmap_app.
  generalize (default [] (WebsetData.items seed)).
  generalize (incomingItems <$> ds'). generalize (incomingItems <$> ds).
  clear. intros bs bs' acc. revert acc.
  induction bs as [|b bs IH]; intros acc; simpl; [apply accumulate_prefix|apply IH].
Qed.

(** The seed [{items: []}], then a poll that returns a, then one that
    returns a and b: the items are a, b. *)
Lemma items_accumulate_witness :
  let h0 := mount (Some "w1") WebsetData.empty None in
  let ds := [sampleData "running" false ["a"]; sampleData "running" true ["a"; "b"]] in
  effectiveItems (run_polls h0 ds) = [WebsetItem.of_id "a"; WebsetItem.of_id "b"]
  ∧ effectiveItems (run_polls h0 (take 1 ds)) `prefix_of` effectiveItems (run_polls h0 ds).
Proof.
  cbv zeta.
  destruct (items_accumulate "w1" WebsetData.empty None
              [sampleData "running" false ["a"]]
              [sampleData "running" true ["a"; "b"]]) as [_ Hprefix]; [done|].
  destruct (items_accumulate "w1" WebsetData.empty None
              [sampleData "running" false ["a"]; sampleData "running" true ["a"; "b"]]
              []) as [Hitems _]; [done|].
  split; [|exact Hprefix]. rewrite Hitems. by vm_compute.
Defined.

(** C7, as stated, fails.  A request issued at mount for w1 is still
    pending after the caller has switched to w2; when it is answered, the
    live snapshot, empty until then, becomes the snapshot of w1. *)
Lemma stale_response_alters_snapshot :
  ¬ stale_responses_ignored.
Proof.
  intros Hclaim.
  specialize (Hclaim switchedSession 0
                (Render.mk (Some "w1") WebsetData.empty true None false)
                (okResponse (sampleData "running" false ["a"]))).
  assert (Hook.liveData
            (step (Settle 0 (okResponse (sampleData "running" false ["a"])))
               switchedSession)
          = Hook.liveData switchedSession) as Hsame.
  { apply Hclaim; [by eexists _, _, _, _|done..]. }
  vm_compute in Hsame. discriminate.
Qed.

(** C7, amended.  A response that settles is applied whatever the current
    [websetId] is: the callback compares no identifiers.  A successful
    response replaces the live snapshot by the one built from the response
    and from the seed and live snapshot of the render that issued the
    request; an unsuccessful response and a thrown error leave the live
    snapshot as it is. *)
Theorem settled_response_applied (h : Hook.t) (i : nat) (r : Render.t)
    (d : ApiData.t) (d' : option ApiData.t) :
  Hook.pending h !! i = Some r →
  Hook.liveData (step (Settle i (okResponse d)) h) = Some (nextLiveData r d)
  ∧ Hook.liveData (step (Settle i (Resolved (mkResponse false d'))) h) = Hook.liveData h
  ∧ Hook.liveData (step (Settle i Rejected) h) = Hook.liveData h.
Proof.
  intros Hr. split; [|split].
  - by rewrite (settle_liveData h i r).
  - by rewrite (settle_liveData h i r).
  - by rewrite (settle_liveData h i r).
Qed.

(** The request issued for w1 and answered after the switch to w2 stores
    the snapshot of w1. *)
Lemma settled_response_applied_witness :
  Render.websetId (Hook.current switchedSession) = Some "w2"
  ∧ (Hook.liveData
       (step (Settle 0 (okResponse (sampleData "running" false ["a"]))) switchedSession)
     ≫= WebsetData.webset_id) = Some "w1".
Proof.
  split; [done|].
  destruct (settled_response_applied switchedSession 0
              (Render.mk (Some "w1") WebsetData.empty true None false)
              (sampleData "running" false ["a"]) None eq_refl) as [Hlive _].
  by rewrite Hlive.
Defined.

(** ** Passthrough fields *)

(** C8, as stated, fails.  After a poll under the seed [{query: b}] the
    live snapshot has the query b; once the caller passes the seed
    [{query: a}], the next merge takes a, the seed's value, although the
    live snapshot defines the field. *)
Lemma passthrough_prefers_seed :
  ¬ passthrough_from_latest.
Proof.
  intros Hclaim.
  destruct (Hclaim reseededSession (sampleData "running" false ["a"])) as [Hquery _].
  - by eexists _, _, _, _.
  - vm_compute in Hquery. discriminate.
Qed.

(** C8, amended.  In the snapshot a successful merge stores, each of
    [query], [entity_type], [external_id] and [cost_deducted] is the seed's
    value when that is a non-empty string; otherwise the prior live
    snapshot's value when there is a live snapshot; otherwise the seed's
    value.  The prior live snapshot is the fallback, not the seed. *)
Theorem passthrough_seed_first (r : Render.t) (d : ApiData.t) :
  let seed := Render.initialData r in
  let live := Render.liveData r in
  let next := nextLiveData r d in
  WebsetData.query next = seed_first WebsetData.query seed live
  ∧ WebsetData.entity_type next = seed_first WebsetData.entity_type seed live
  ∧ WebsetData.external_id next = seed_first WebsetData.external_id seed live
  ∧ WebsetData.cost_deducted next = seed_first WebsetData.cost_deducted seed live.
Proof.
  assert (∀ field : WebsetData.t → option string,
            js_or (field (Render.initialData r))
              (field (effectiveData (Render.liveData r) (Render.initialData r)))
            = seed_first field (Render.initialData r) (Render.liveData r)) as Hfield.
  { intros field. unfold js_or, seed_first, effectiveData.
    cbv [truthy truthy_option truthy_string].
    destruct (field (Render.initialData r)) as [v|] eqn:Hv,
             (Render.liveData r) as [l|]; simpl; rewrite ?Hv; try done.
    - case_bool_decide; by case_decide.
    - by case_bool_decide. }
  cbv zeta. simpl. by rewrite !Hfield.
Qed.

(** * Further properties of the hook *)

(** ** What a commit does *)

Section Commits.
Implicit Types (h : Hook.t) (r : Render.t).

Lemma shouldPoll_guard w en seed eff :
  truthy (shouldPoll w en seed eff) = true → truthy w = true ∧ en = true.
Proof.
  unfold shouldPoll. destruct (truthy w), en; simpl; try done.
Qed.

Lemma fetchInitialEffect_spec r h :
  fetchInitialEffect r h
  = Hook.setPending (Hook.pending h ++ requests (fetchesInitial r) r) h.
Proof.
  unfold fetchInitialEffect, fetchesInitial, pollWebsetStatus, requests.
  destruct h as [c t n cl p].
  destruct (truthy (Render.websetId r)); simpl; [|by rewrite app_nil_r].
  case_match; simpl; [done|by rewrite app_nil_r].
Qed.

(** One pass of the effects when no interval is armed once the cleanup
    has run. *)
Lemma effects_spec h :
  (if Hook.cleanup h then None else Hook.pollingIntervalRef h) = None →
  let r := Hook.current h in
  let go := truthy (shouldPoll_of r) && negb (Render.isPolling r) in
  effects h
  = Hook.mk (withPolling (Render.isPolling r || go) r)
      (if go then Some r else None)
      (if go then 0 else Hook.pollCountRef h)
      (truthy (Render.websetId r) && Render.enabled r)
      (Hook.pending h ++ requests (fetchesInitial r) r ++ requests go r).
Proof.
  intros Hnone. cbv zeta. unfold effects. rewrite fetchInitialEffect_spec.
  destruct h as [r t n cl p]. simpl in Hnone.
  assert (pollingCleanup (Hook.mk r t n cl p) = Hook.mk r None n cl p) as ->.
  { unfold pollingCleanup. simpl. destruct cl; [done|]. by subst t. }
  unfold pollingEffect, pollWebsetStatus. simpl.
  destruct (truthy (shouldPoll_of r)) eqn:Hsp.
  - destruct (shouldPoll_guard _ _ _ _ Hsp) as [Hw Hen]. rewrite Hw, Hen.
    destruct r as [w seed en live ip]. simpl in *. subst en.
    destruct ip; simpl; rewrite ?Hw; simpl; unfold requests, withPolling; simpl;
      by rewrite ?app_nil_r, <- ?app_assoc.
  - destruct r as [w seed en live ip]. simpl in *.
    destruct (truthy w), en, ip; simpl; unfold requests, withPolling; simpl;
      by rewrite ?app_nil_r.
Qed.

(** A commit when no interval is armed: polling starts when [shouldPoll] is
    truthy and [isPolling] is false; the interval armed then is cleared by
    the cleanup of the render that [setIsPolling(true)] causes. *)
Lemma commit_spec h :
  Hook.pollingIntervalRef h = None →
  let r := Hook.current h in
  let go := truthy (shouldPoll_of r) && negb (Render.isPolling r) in
  commit h
  = Hook.mk (withPolling (Render.isPolling r || go) r)
      None
      (if go then 0 else Hook.pollCountRef h)
      (truthy (Render.websetId r) && Render.enabled r)
      (Hook.pending h ++ requests (fetchesInitial r) r ++ requests go r).
Proof.
  intros Hnone. cbv zeta. unfold commit.
  rewrite (effects_spec h) by (rewrite Hnone; by destruct (Hook.cleanup h)).
  destruct (truthy (shouldPoll_of (Hook.current h))) eqn:Hsp; simpl.
  - destruct (shouldPoll_guard _ _ _ _ Hsp) as [Hw Hen].
    unfold Hook.isPolling. simpl.
    destruct (Render.isPolling (Hook.current h)) eqn:Hip; simpl.
    + done.
    + rewrite effects_spec; simpl; [|by rewrite Hw, Hen].
      rewrite shouldPoll_of_withPolling, Hsp, Hw, Hen. simpl.
      unfold fetchesInitial, requests. simpl.
      by rewrite !andb_false_r, !app_nil_r.
  - unfold Hook.isPolling. simpl. rewrite orb_false_r.
    by rewrite bool_decide_eq_true_2.
Qed.
End Commits.

(** ** Sessions, by induction on their events *)

Section Reachability.
Implicit Types (h : Hook.t) (r : Render.t) (e : Event).

Lemma run_snoc es e h : run (es ++ [e]) h = step e (run es h).
Proof. unfold run. by rewrite foldl_snoc. Qed.

Lemma reachable_mount w seed en : reachable (mount w seed en).
Proof. by exists w, seed, en, []. Qed.

Lemma reachable_step e h : reachable h → reachable (step e h).
Proof.
  intros (w & seed & en & es & ->). exists w, seed, en, (es ++ [e]).
  by rewrite run_snoc.
Qed.

Lemma reachable_run es h : reachable h → reachable (run es h).
Proof.
  induction es as [|e es IH] using rev_ind; [done|].
  intros Hh. rewrite run_snoc. by apply reachable_step, IH.
Qed.

Lemma reachable_ind (P : Hook.t → Prop) :
  (∀ w seed en, P (mount w seed en)) →
  (∀ e h, reachable h → P h → P (step e h)) →
  ∀ h, reachable h → P h.
Proof.
  intros Hmount Hstep h (w & seed & en & es & ->).
  induction es as [|e es IH] using rev_ind; [apply Hmount|].
  rewrite run_snoc. apply Hstep; [|done].
  apply reachable_run, reachable_mount.
Qed.

Lemma pollWebsetStatus_interval r h :
  Hook.pollingIntervalRef (pollWebsetStatus r h) = Hook.pollingIntervalRef h.
Proof. unfold pollWebsetStatus. by case_match. Qed.

Lemma resume_interval r o h :
  Hook.pollingIntervalRef h = None →
  Hook.pollingIntervalRef (pollWebsetStatus_resume r o h) = None.
Proof.
  intros Hnone. destruct o as [[[] [d|]]|]; simpl; try done.
  - by destruct (truthy (ApiData.is_complete d)).
  - by destruct (bool_decide (10 ≤ S (Hook.pollCountRef h))).
Qed.

Lemma commit_interval h :
  Hook.pollingIntervalRef h = None → Hook.pollingIntervalRef (commit h) = None.
Proof. intros Hnone. by rewrite commit_spec. Qed.

Lemma step_interval e h :
  Hook.pollingIntervalRef h = None → Hook.pollingIntervalRef (step e h) = None.
Proof.
  intros Hnone. destruct e as [w seed en| | |i o]; simpl.
  - by apply commit_interval.
  - by rewrite pollWebsetStatus_interval.
  - by rewrite Hnone.
  - destruct (Hook.pending h !! i) as [r|]; [|done].
    assert (Hook.pollingIntervalRef
              (pollWebsetStatus_resume r o
                 (Hook.setPending (delete i (Hook.pending h)) h)) = None) as Hresume
      by by apply resume_interval.
    case_match; [by apply commit_interval|done].
Qed.

Lemma reachable_interval h : reachable h → Hook.pollingIntervalRef h = None.
Proof.
  revert h. apply reachable_ind.
  - intros w seed en. unfold mount. by apply commit_interval.
  - intros e h _. apply step_interval.
Qed.
End Reachability.

(** X1.  In every state a session is in between two events no interval is
    armed: the interval the polling effect arms is cleared by the cleanup
    that runs in the commit its own [setIsPolling(true)] causes.  A tick of
    the timer therefore never issues a request. *)
Theorem interval_never_armed (h : Hook.t) :
  reachable h →
  Hook.pollingIntervalRef h = None ∧ step Tick h = h.
Proof.
  intros Hh. pose proof (reachable_interval h Hh) as Hnone.
  split; [done|]. simpl. by rewrite Hnone.
Qed.

Lemma interval_never_armed_witness :
  Hook.isPolling mountedSession = true
  ∧ Hook.pollingIntervalRef mountedSession = None
  ∧ step Tick mountedSession = mountedSession.
Proof.
  split; [done|].
  apply (interval_never_armed mountedSession).
  by exists (Some "w1"), WebsetData.empty, None, [].
Defined.

(** X2.  At mount the hook issues one request when the id is non-empty,
    the hook is enabled and the seed has no items, and one more, for the
    same snapshot, when [shouldPoll] is truthy; [isPolling] is then true
    exactly when [shouldPoll] is truthy.  With a null or empty id, or
    disabled, it issues none and does not poll. *)
Theorem mount_requests (w : option string) (seed : WebsetData.t) (en : option bool) :
  let r0 := Render.mk w seed (default true en) None false in
  Hook.pending (mount w seed en)
  = requests (fetchesInitial r0) r0 ++ requests (truthy (shouldPoll_of r0)) r0
  ∧ Hook.isPolling (mount w seed en) = truthy (shouldPoll_of r0)
  ∧ (truthy w && default true en = false →
     Hook.pending (mount w seed en) = [] ∧ Hook.isPolling (mount w seed en) = false).
Proof.
  cbv zeta. unfold mount. rewrite commit_spec by done. simpl.
  rewrite andb_true_r. split; [done|]. split; [done|].
  intros Hoff.
  assert (truthy (shouldPoll_of (Render.mk w seed (default true en) None false)) = false)
    as ->.
  { destruct (truthy (shouldPoll_of _)) eqn:Hsp; [|done].
    apply shouldPoll_guard in Hsp as [Hw Hen]. simpl in *.
    by rewrite Hw, Hen in Hoff. }
  unfold fetchesInitial, requests. simpl. revert Hoff.
  destruct (truthy w), (default true en); simpl; try done;
    by rewrite ?andb_false_r.
Qed.

(** With the seed [{}] both requests are issued; with the hook disabled,
    none. *)
Lemma mount_requests_witness :
  length (Hook.pending (mount (Some "w1") WebsetData.empty None)) = 2
  ∧ Hook.pending (mount (Some "w1") WebsetData.empty (Some false)) = [].
Proof.
  destruct (mount_requests (Some "w1") WebsetData.empty None) as (Hpending & _ & _).
  destruct (mount_requests (Some "w1") WebsetData.empty (Some false)) as (_ & _ & Hoff).
  split; [by rewrite Hpending|]. by apply Hoff.
Defined.

Section SessionFacts.
Implicit Types (h : Hook.t) (r : Render.t) (l : WebsetData.t).

(** A live snapshot that is complete and defines [is_processing] makes
    [shouldPoll] falsy, whatever the id, the seed and the status are. *)
Lemma shouldPoll_live_complete w en seed l :
  WebsetData.is_complete l = Some true →
  WebsetData.is_processing l ≠ None →
  truthy (shouldPoll w en seed (effectiveData (Some l) seed)) = false.
Proof.
  intros Hcomplete Hflag. unfold shouldPoll, effectiveData. simpl.
  rewrite Hcomplete.
  destruct (truthy w), en; simpl; try done.
  destruct (WebsetData.is_processing l) as [b|]; [|done].
  rewrite (bool_decide_eq_true_2 (Some b ≠ None)) by done.
  rewrite orb_true_r.
  by destruct (WebsetData.is_processing seed) as [[]|], b.
Qed.

Lemma step_liveData e h :
  Hook.liveData (step e h) = Hook.liveData h
  ∨ ∃ r d, Hook.liveData (step e h) = Some (nextLiveData r d).
Proof.
  destruct e as [w seed en| | |i o].
  - left. simpl. by rewrite commit_liveData.
  - left. unfold Hook.liveData. simpl. by rewrite pollWebsetStatus_current.
  - left. unfold Hook.liveData. simpl.
    destruct (Hook.pollingIntervalRef h); [by rewrite pollWebsetStatus_current|done].
  - destruct (Hook.pending h !! i) as [r|] eqn:Hr; [|left; simpl; by rewrite Hr].
    rewrite (settle_liveData h i r o Hr).
    destruct o as [[[] [d|]]|]; eauto.
Qed.

Lemma reachable_liveData h l :
  reachable h → Hook.liveData h = Some l → ∃ r d, l = nextLiveData r d.
Proof.
  intros Hh. revert l. revert h Hh. apply (reachable_ind (λ h, ∀ l, _ → _)).
  - intros w seed en l. unfold mount. by rewrite commit_liveData.
  - intros e h _ IH l Hl.
    destruct (step_liveData e h) as [Hsame|(r & d & Hnew)].
    + apply IH. by rewrite <- Hsame.
    + exists r, d. rewrite Hnew in Hl. by injection Hl as <-.
Qed.

Lemma setProps_commit_spec h w seed en :
  Hook.pollingIntervalRef h = None →
  let r := Render.mk w seed (default true en) (Hook.liveData h) (Hook.isPolling h) in
  Hook.current (step (SetProps w seed en) h)
  = withPolling (Hook.isPolling h || truthy (shouldPoll_of r)) r.
Proof.
  intros Hnone. simpl. rewrite commit_spec by done. simpl.
  unfold withPolling, Hook.liveData, Hook.isPolling. simpl. f_equal.
  by destruct (Render.isPolling (Hook.current h)), (truthy _).
Qed.
End SessionFacts.

(** X3.  No change of props, call of [pollWebsetStatus] or tick sets
    [isPolling] to false: when the caller clears the id or disables the
    hook while [isPolling] is true, [isPolling] stays true.  Only a
    settling response resets it. *)
Theorem props_never_stop_polling (h : Hook.t) (w : option string)
    (seed : WebsetData.t) (en : option bool) :
  reachable h →
  Hook.isPolling h = true →
  Hook.isPolling (step (SetProps w seed en) h) = true
  ∧ Hook.isPolling (step PollNow h) = true
  ∧ Hook.isPolling (step Tick h) = true.
Proof.
  intros Hh Hpolling. pose proof (reachable_interval h Hh) as Hnone.
  split; [|split].
  - unfold Hook.isPolling at 1. rewrite setProps_commit_spec by done.
    simpl. by rewrite Hpolling.
  - unfold Hook.isPolling. simpl. by rewrite pollWebsetStatus_current.
  - simpl. by rewrite Hnone.
Qed.

(** The mounted session is polling; it still says so after the caller
    has cleared the id and disabled the hook. *)
Lemma props_never_stop_polling_witness :
  Hook.isPolling (step (SetProps None WebsetData.empty (Some false)) mountedSession)
  = true.
Proof.
  apply (props_never_stop_polling mountedSession None WebsetData.empty (Some false));
    [|done].
  by exists (Some "w1"), WebsetData.empty, None, [].
Defined.

Section Settling.
Implicit Types (h : Hook.t) (r : Render.t).
Local Arguments commit : simpl never.
Local Arguments shouldPoll_of : simpl never.

(** The failure that exhausts the budget, settling while [isPolling] is
    true, is followed by a commit. *)
Lemma settle_exhausting h i r :
  Hook.pending h !! i = Some r →
  9 ≤ Hook.pollCountRef h →
  Hook.isPolling h = true →
  step (Settle i Rejected) h
  = commit (Hook.mk (withPolling false (Hook.current h)) None
              (S (Hook.pollCountRef h)) (Hook.cleanup h)
              (delete i (Hook.pending h))).
Proof.
  intros Hr Hcount Hpolling. unfold step. rewrite Hr.
  unfold pollWebsetStatus_resume, rerenders.
  cbn [Hook.pollCountRef Hook.setPollCount Hook.setPending].
  rewrite (bool_decide_eq_true_2 (10 ≤ S (Hook.pollCountRef h))) by lia.
  rewrite Hpolling.
  change (Hook.isPolling (Hook.clearPollingInterval (Hook.setIsPolling false _)))
    with false.
  rewrite bool_decide_eq_false_2 by done.
  cbn [negb]. f_equal.
Qed.

(** A successful response is followed by a commit; when it says the job
    is complete, the commit starts from [isPolling = false]. *)
Lemma settle_complete h i r d :
  Hook.pending h !! i = Some r →
  truthy (ApiData.is_complete d) = true →
  step (Settle i (okResponse d)) h
  = commit (Hook.mk (Render.mk (Render.websetId (Hook.current h))
                       (Render.initialData (Hook.current h))
                       (Render.enabled (Hook.current h))
                       (Some (nextLiveData r d)) false)
              None 0 (Hook.cleanup h) (delete i (Hook.pending h))).
Proof.
  intros Hr Hcomplete. unfold step. rewrite Hr.
  unfold okResponse, pollWebsetStatus_resume, rerenders. cbn [success data].
  rewrite Hcomplete. f_equal.
Qed.
End Settling.

(** X4.  The failure budget does not stop polling for good.  When the
    failure that exhausts the budget settles while [isPolling] is true and
    [shouldPoll] is still truthy, the render caused by [setIsPolling(false)]
    runs the polling effect again: [isPolling] is true again, the counter
    is back to 0 and a new request has been issued. *)
Theorem exhaustion_restarts_polling (h : Hook.t) (i : nat) (r : Render.t) :
  Hook.pending h !! i = Some r →
  9 ≤ Hook.pollCountRef h →
  Hook.isPolling h = true →
  truthy (shouldPoll_of (Hook.current h)) = true →
  let h' := step (Settle i Rejected) h in
  Hook.isPolling h' = true
  ∧ Hook.pollCountRef h' = 0
  ∧ last (Hook.pending h') = Some (withPolling false (Hook.current h)).
Proof.
  intros Hr Hcount Hpolling Hsp. cbv zeta.
  rewrite (settle_exhausting h i r Hr Hcount Hpolling).
  rewrite commit_spec by done.
  cbn [Hook.current Hook.isPolling Hook.pollCountRef Hook.pending].
  rewrite shouldPoll_of_withPolling, Hsp.
  split; [done|]. split; [done|].
  cbn [withPolling Render.isPolling negb andb requests].
  by rewrite !app_assoc, last_snoc.
Qed.

(** Nine failures in a row, then the tenth: polling is active again and
    the counter is 0. *)
Lemma exhaustion_restarts_polling_witness :
  Hook.pollCountRef nineFailedSession = 9
  ∧ Hook.isPolling (step (Settle 0 Rejected) nineFailedSession) = true
  ∧ Hook.pollCountRef (step (Settle 0 Rejected) nineFailedSession) = 0.
Proof.
  split; [vm_compute; reflexivity|].
  assert (Hook.pending nineFailedSession !! 0
          = Some (Render.mk (Some "w1") WebsetData.empty true None true)) as Hr
    by (vm_compute; reflexivity).
  assert (9 ≤ Hook.pollCountRef nineFailedSession) as Hcount by (vm_compute; lia).
  assert (Hook.isPolling nineFailedSession = true) as Hpolling
    by (vm_compute; reflexivity).
  assert (truthy (shouldPoll_of (Hook.current nineFailedSession)) = true) as Hsp
    by (vm_compute; reflexivity).
  destruct (exhaustion_restarts_polling nineFailedSession 0 _ Hr Hcount Hpolling Hsp)
    as (Hon & Hzero & _).
  split; assumption.
Defined.

Section Completion.
Implicit Types (h : Hook.t) (r : Render.t) (d : ApiData.t).
Local Arguments commit : simpl never.
Local Arguments shouldPoll_of : simpl never.

Lemma shouldPoll_of_complete w seed en r d ip :
  ApiData.is_complete d = Some true →
  is_Some (ApiData.is_processing d) →
  truthy (shouldPoll_of (Render.mk w seed en (Some (nextLiveData r d)) ip)) = false.
Proof.
  intros Hcomplete [b Hflag]. unfold shouldPoll_of.
  cbn [Render.websetId Render.enabled Render.initialData Render.liveData].
  apply shouldPoll_live_complete; simpl; [done|by rewrite Hflag].
Qed.

(** With no [is_processing] flag anywhere, a non-empty id and the hook
    enabled, the status "running" or "pending" of the live snapshot makes
    [shouldPoll] true. *)
Lemma shouldPoll_of_active w seed en r d ip :
  truthy w = true → en = true →
  WebsetData.is_processing seed = None →
  ApiData.is_processing d = None →
  ApiData.status d = "running" ∨ ApiData.status d = "pending" →
  shouldPoll_of (Render.mk w seed en (Some (nextLiveData r d)) ip) = Some true.
Proof.
  intros Hw -> Hseed Hflag Hstatus. unfold shouldPoll_of, shouldPoll, effectiveData.
  simpl. rewrite Hw, Hseed, Hflag. simpl.
  by destruct Hstatus as [-> | ->].
Qed.

(** The commit that follows a response that says the job is complete
    starts from [isPolling = false]; what it leaves depends on
    [shouldPoll] alone. *)
Lemma settle_complete_state h i r d :
  Hook.pending h !! i = Some r →
  truthy (ApiData.is_complete d) = true →
  let r' := Render.mk (Render.websetId (Hook.current h))
              (Render.initialData (Hook.current h))
              (Render.enabled (Hook.current h))
              (Some (nextLiveData r d)) false in
  let go := truthy (shouldPoll_of r') in
  step (Settle i (okResponse d)) h
  = Hook.mk (withPolling go r') None 0
      (truthy (Render.websetId (Hook.current h)) && Render.enabled (Hook.current h))
      (delete i (Hook.pending h) ++ requests go r').
Proof.
  intros Hr Hcomplete. cbv zeta. rewrite (settle_complete h i r d Hr Hcomplete).
  rewrite commit_spec by done.
  cbn [Hook.current Hook.pollCountRef Hook.pending Render.isPolling
       Render.websetId Render.enabled negb orb].
  rewrite andb_true_r.
  unfold fetchesInitial. cbn. rewrite !andb_false_r. cbn.
  f_equal. by destruct (truthy (shouldPoll_of _)).
Qed.
End Completion.

(** X5.  A successful response that carries [is_processing] and says the
    job is complete stops polling: after it [isPolling] is false, no
    interval is armed, the counter is 0, no request has been added and
    [shouldPoll] is falsy; and no change of props, call of
    [pollWebsetStatus] or tick sets [isPolling] again.  Only a response
    that settles later can, as it replaces the live snapshot. *)
Theorem completion_stops_polling (h : Hook.t) (i : nat) (r : Render.t)
    (d : ApiData.t) (w : option string) (seed : WebsetData.t) (en : option bool) :
  Hook.pending h !! i = Some r →
  ApiData.is_complete d = Some true →
  is_Some (ApiData.is_processing d) →
  let h' := step (Settle i (okResponse d)) h in
  Hook.isPolling h' = false
  ∧ Hook.pollingIntervalRef h' = None
  ∧ Hook.pollCountRef h' = 0
  ∧ Hook.pending h' = delete i (Hook.pending h)
  ∧ truthy (shouldPoll_of (Hook.current h')) = false
  ∧ Hook.isPolling (step (SetProps w seed en) h') = false
  ∧ Hook.isPolling (step PollNow h') = false
  ∧ Hook.isPolling (step Tick h') = false.
Proof.
  intros Hr Hcomplete Hflag. cbv zeta.
  rewrite (settle_complete_state h i r d Hr) by (by rewrite Hcomplete).
  rewrite !shouldPoll_of_complete by done.
  cbn [requests withPolling]. rewrite app_nil_r.
  split; [done|]. split; [done|]. split; [done|]. split; [done|].
  split; [by apply shouldPoll_of_complete|].
  split; [|split].
  - unfold Hook.isPolling at 1. rewrite setProps_commit_spec by done.
    unfold Hook.liveData, Hook.isPolling.
    cbn [Hook.current Render.liveData Render.isPolling withPolling orb].
    by apply shouldPoll_of_complete.
  - unfold Hook.isPolling. cbn [step]. by rewrite pollWebsetStatus_current.
  - done.
Qed.

(** The first request of the mounted session answered by a complete
    response. *)
Lemma completion_stops_polling_witness :
  let h' := step (Settle 0 (okResponse (sampleData "completed" true ["a"]))) mountedSession in
  Hook.isPolling mountedSession = true
  ∧ Hook.isPolling h' = false
  ∧ Hook.isPolling (step (SetProps (Some "w1") WebsetData.empty None) h') = false.
Proof.
  cbv zeta. split; [vm_compute; reflexivity|].
  assert (Hook.pending mountedSession !! 0
          = Some (Render.mk (Some "w1") WebsetData.empty true None false)) as Hr
    by (vm_compute; reflexivity).
  destruct (completion_stops_polling mountedSession 0 _
              (sampleData "completed" true ["a"]) (Some "w1") WebsetData.empty None
              Hr eq_refl) as (Hoff & _ & _ & _ & _ & Hstays & _); [by eexists|].
  split; assumption.
Defined.

(** X6.  A response that says the job is complete but carries no
    [is_processing] does not stop polling when its status is "running" or
    "pending" and the seed has no [is_processing] either: the handler sets
    [isPolling] to false, and the commit that follows finds [shouldPoll]
    true, sets [isPolling] again and issues a new request, although the
    live snapshot says the job is complete. *)
Theorem complete_without_flag_keeps_polling (h : Hook.t) (i : nat)
    (r : Render.t) (d : ApiData.t) :
  Hook.pending h !! i = Some r →
  ApiData.is_complete d = Some true →
  ApiData.is_processing d = None →
  WebsetData.is_processing (Render.initialData (Hook.current h)) = None →
  ApiData.status d = "running" ∨ ApiData.status d = "pending" →
  truthy (Render.websetId (Hook.current h)) = true →
  Render.enabled (Hook.current h) = true →
  let h' := step (Settle i (okResponse d)) h in
  Hook.isPolling h' = true
  ∧ Hook.liveData h' ≫= WebsetData.is_complete = Some true
  ∧ Hook.pollCountRef h' = 0
  ∧ Hook.pending h'
    = delete i (Hook.pending h)
      ++ [Render.mk (Render.websetId (Hook.current h))
            (Render.initialData (Hook.current h)) true
            (Some (nextLiveData r d)) false].
Proof.
  intros Hr Hcomplete Hflag Hseed Hstatus Hw Hen. cbv zeta.
  rewrite (settle_complete_state h i r d Hr) by (by rewrite Hcomplete).
  rewrite !Hen, !shouldPoll_of_active by done.
  unfold Hook.isPolling, Hook.liveData. cbn. by rewrite Hcomplete.
Qed.

(** The first request of the mounted session answered by
    [{status: running, is_complete: true}]: the hook is polling and has
    issued a request more. *)
Lemma complete_without_flag_keeps_polling_witness :
  let h' := step (Settle 0 (okResponse (unflaggedData "running" ["a"]))) mountedSession in
  Hook.isPolling h' = true
  ∧ Hook.liveData h' ≫= WebsetData.is_complete = Some true
  ∧ length (Hook.pending h') = 2.
Proof.
  cbv zeta.
  assert (Hook.pending mountedSession !! 0
          = Some (Render.mk (Some "w1") WebsetData.empty true None false)) as Hr
    by (vm_compute; reflexivity).
  destruct (complete_without_flag_keeps_polling mountedSession 0 _
              (unflaggedData "running" ["a"]) Hr eq_refl eq_refl eq_refl)
    as (Hpolling & Hlive & _ & Hpending);
    [by left|vm_compute; reflexivity|vm_compute; reflexivity|].
  split; [done|]. split; [done|]. rewrite Hpending. vm_compute. reflexivity.
Defined.



(** ** More on merging *)

Section MoreMerging.
Implicit Types existing incoming : list WebsetItem.t.

Lemma newItems_fresh existing incoming item :
  item ∈ newItems existing incoming →
  item ∈ incoming ∧ truthy (WebsetItem.id item)
  ∧ WebsetItem.id item ∉ WebsetItem.id <$> existing.
Proof.
  unfold newItems. rewrite list_elem_of_filter, elem_of_existingItemIds.
  by intros [[? ?] ?].
Qed.

Lemma newItems_nil existing incoming :
  newItems existing incoming = []
  ↔ ∀ item, item ∈ incoming → truthy (WebsetItem.id item) →
            WebsetItem.id item ∈ WebsetItem.id <$> existing.
Proof.
  split.
  - intros Hnil item Hin Hid.
    destruct (decide (WebsetItem.id item ∈ WebsetItem.id <$> existing)) as [|Hfresh];
      [done|].
    exfalso. eapply (filter_nil_not_elem_of _ incoming item); [exact Hnil| |done].
    split; [done|]. by rewrite elem_of_existingItemIds.
  - intros Hall. apply filter_none. intros item Hin [Hid Hfresh].
    apply Hfresh, elem_of_existingItemIds. by apply Hall.
Qed.
End MoreMerging.

(** X8.  Merging keeps ids distinct: when no id occurs twice among the
    existing items nor twice in the response, no id occurs twice in the
    merged sequence. *)
Theorem merge_preserves_distinct_ids (existing incoming : list WebsetItem.t) :
  NoDup (WebsetItem.id <$> existing) →
  NoDup (WebsetItem.id <$> incoming) →
  NoDup (WebsetItem.id <$> mergedItems existing incoming).
Proof.
  intros Hexisting Hincoming. unfold mergedItems. rewrite fmap_app.
  apply NoDup_app. split; [done|]. split.
  - intros x Hx (item & -> & Hitem)%list_elem_of_fmap.
    by apply newItems_fresh in Hitem as (_ & _ & Hfresh).
  - eapply sublist_NoDup; [exact Hincoming|].
    apply fmap_sublist. unfold newItems. apply sublist_filter.
Qed.

Lemma merge_preserves_distinct_ids_witness :
  NoDup (WebsetItem.id <$>
           mergedItems [WebsetItem.of_id "a"] [WebsetItem.of_id "b"; WebsetItem.of_id "a"]).
Proof.
  apply (merge_preserves_distinct_ids
           [WebsetItem.of_id "a"] [WebsetItem.of_id "b"; WebsetItem.of_id "a"]).
  - vm_compute. apply NoDup_singleton.
  - vm_compute. apply NoDup_cons. split; [|apply NoDup_singleton].
    intros H. apply elem_of_cons in H as [H|H]; [discriminate|].
    by apply elem_of_nil in H.
Defined.

(** X9.  A merge neither loses nor invents an id: a non-empty id occurs in
    the merged sequence exactly when it occurs among the existing items or
    in the response. *)
Theorem merge_ids (existing incoming : list WebsetItem.t) (s : string) :
  s ≠ EmptyString →
  Some s ∈ WebsetItem.id <$> mergedItems existing incoming
  ↔ Some s ∈ WebsetItem.id <$> existing ∨ Some s ∈ WebsetItem.id <$> incoming.
Proof.
  intros Hs. unfold mergedItems. rewrite fmap_app, elem_of_app. split.
  - intros [Hold|(item & Hid & Hitem)%list_elem_of_fmap]; [by left|].
    right. apply newItems_fresh in Hitem as (Hin & _ & _).
    apply list_elem_of_fmap. eauto.
  - intros [Hold|(item & Hid & Hin)%list_elem_of_fmap]; [by left|].
    destruct (decide (Some s ∈ WebsetItem.id <$> existing)) as [|Hfresh]; [by left|].
    right. apply list_elem_of_fmap. exists item. split; [done|].
    unfold newItems. apply list_elem_of_filter. split; [|done]. rewrite <- Hid.
    split; [|by rewrite elem_of_existingItemIds].
    cbv [truthy truthy_option truthy_string]. by apply bool_decide_spec.
Qed.

Lemma merge_ids_witness :
  Some "b" ∈ WebsetItem.id <$>
    mergedItems [WebsetItem.of_id "a"] [WebsetItem.of_id "b"; WebsetItem.of_id "a"].
Proof.
  apply (merge_ids [WebsetItem.of_id "a"] [WebsetItem.of_id "b"; WebsetItem.of_id "a"] "b");
    [discriminate|].
  right. vm_compute. left.
Defined.

(** X10.  A merge only appends: the existing items are a prefix of the
    merged sequence, which has at most as many more items as the response
    carries; and it changes nothing exactly when every item of the response
    with a non-empty id is already present. *)
Theorem merge_extends (existing incoming : list WebsetItem.t) :
  existing `prefix_of` mergedItems existing incoming
  ∧ length existing ≤ length (mergedItems existing incoming)
    ≤ length existing + length incoming
  ∧ (mergedItems existing incoming = existing
     ↔ Forall (λ item, truthy (WebsetItem.id item) →
                       WebsetItem.id item ∈ WebsetItem.id <$> existing) incoming).
Proof.
  split; [by apply prefix_app_r|]. split.
  - unfold mergedItems. rewrite length_app.
    pose proof (length_filter
                  (λ item, truthy (WebsetItem.id item)
                           ∧ WebsetItem.id item ∉ existingItemIds existing) incoming).
    unfold newItems. lia.
  - rewrite Forall_forall, <- newItems_nil. unfold mergedItems. split.
    + intros Heq. apply (app_inv_head existing). by rewrite app_nil_r.
    + intros ->. apply app_nil_r.
Qed.

(** A response that only repeats a present item changes nothing. *)
Lemma merge_extends_witness :
  mergedItems [WebsetItem.of_id "a"] [WebsetItem.of_id "a"] = [WebsetItem.of_id "a"].
Proof.
  destruct (merge_extends [WebsetItem.of_id "a"] [WebsetItem.of_id "a"])
    as (_ & _ & Hsame).
  apply Hsame. apply Forall_cons. split; [|apply Forall_nil_2].
  intros _. vm_compute. left.
Defined.

(** ** More on the polling decision *)

(** X11.  When the seed or the effective snapshot defines [is_processing],
    the status strings are not consulted: [shouldPoll] is the same whatever
    they are. *)
Theorem shouldPoll_flags_ignore_status (w : option string) (en : bool)
    (seed eff : WebsetData.t) (st st' : option string) :
  WebsetData.is_processing seed ≠ None ∨ WebsetData.is_processing eff ≠ None →
  shouldPoll w en (withStatus st seed) (withStatus st' eff) = shouldPoll w en seed eff.
Proof.
  intros Hflag. unfold shouldPoll. simpl.
  destruct (negb (truthy w) || negb en); [done|].
  destruct (WebsetData.is_processing seed) as [b|],
           (WebsetData.is_processing eff) as [b'|]; try done.
  by destruct Hflag.
Qed.

(** With [is_processing: false] in the live snapshot, the status
    "running" does not make the hook poll. *)
Lemma shouldPoll_flags_ignore_status_witness :
  let eff :=
    WebsetData.mk None None None None None None None None None None
      (Some false) None None None in
  shouldPoll (Some "w1") true (withStatus (Some "running") WebsetData.empty)
    (withStatus (Some "running") eff)
  = shouldPoll (Some "w1") true WebsetData.empty eff
  ∧ shouldPoll (Some "w1") true WebsetData.empty eff = Some false.
Proof.
  cbv zeta. split; [|vm_compute; reflexivity].
  apply (shouldPoll_flags_ignore_status (Some "w1") true WebsetData.empty).
  right. discriminate.
Defined.

(** X12.  With no [is_processing] flag and a non-empty status string (the
    effective one, else the seed's), the decision is read off the status
    alone: [true] for "running" and "pending" when the id is non-empty and
    the hook enabled, [false] otherwise.  [is_complete] is not consulted. *)
Theorem shouldPoll_by_status (w : option string) (en : bool)
    (seed eff : WebsetData.t) (s : string) :
  WebsetData.is_processing seed = None →
  WebsetData.is_processing eff = None →
  js_or (WebsetData.status eff) (WebsetData.status seed) = Some s →
  s ≠ EmptyString →
  shouldPoll w en seed eff
  = Some (truthy w && en && bool_decide (s = "running" ∨ s = "pending")).
Proof.
  intros Hseed Heff Hstatus Hs. unfold shouldPoll.
  rewrite Hseed, Heff, Hstatus. simpl.
  destruct (truthy w), en; simpl; try done.
  cbv [truthy truthy_option truthy_string]. rewrite (bool_decide_eq_true_2 _ Hs).
  simpl. unfold includes.
  destruct (decide (s = "running")) as [->|Hrun]; [done|].
  destruct (decide (s = "pending")) as [->|Hpend]; [done|].
  rewrite bool_decide_eq_false_2.
  - rewrite bool_decide_eq_false_2; [done|]. by intros [|].
  - intros Hin. repeat (apply elem_of_cons in Hin as [Hin|Hin]; [done|]).
    by apply elem_of_nil in Hin.
Qed.

(** A snapshot whose status is "completed" is not polled; one whose
    status is "pending" is, also when it says it is complete. *)
Lemma shouldPoll_by_status_witness :
  shouldPoll (Some "w1") true WebsetData.empty
    (withStatus (Some "completed") WebsetData.empty) = Some false
  ∧ shouldPoll (Some "w1") true WebsetData.empty
      (withStatus (Some "pending") completedRunning) = Some true.
Proof.
  split.
  - by rewrite (shouldPoll_by_status (Some "w1") true WebsetData.empty
                  (withStatus (Some "completed") WebsetData.empty) "completed").
  - by rewrite (shouldPoll_by_status (Some "w1") true WebsetData.empty
                  (withStatus (Some "pending") completedRunning) "pending").
Defined.

(** ** The caller's expanded rows *)

(** X13.  [toggleExpand] flips the membership of the given row and of no
    other row, and toggling the same row twice gives the set back. *)
Theorem toggleExpand_flips_one (expandedRows : gset string) (itemId : string) :
  toggleExpand (toggleExpand expandedRows itemId) itemId = expandedRows
  ∧ (itemId ∈ toggleExpand expandedRows itemId ↔ itemId ∉ expandedRows)
  ∧ toggleExpand expandedRows itemId ∖ {[itemId]} = expandedRows ∖ {[itemId]}.
Proof.
  unfold toggleExpand. split; [|split].
  - apply set_eq. intros x.
    destruct (decide (itemId ∈ expandedRows)) as [Hin|Hout].
    + rewrite decide_False
        by (rewrite elem_of_difference, elem_of_singleton; by intros [_ ?]).
      rewrite elem_of_union, elem_of_difference, elem_of_singleton.
      destruct (decide (x = itemId)) as [->|]; intuition congruence.
    + rewrite decide_True by (rewrite elem_of_union, elem_of_singleton; by right).
      rewrite elem_of_difference, elem_of_union, elem_of_singleton.
      destruct (decide (x = itemId)) as [->|]; intuition congruence.
  - case_decide as Hin.
    + rewrite elem_of_difference, elem_of_singleton. intuition congruence.
    + rewrite elem_of_union, elem_of_singleton. intuition congruence.
  - apply set_eq. intros x. case_decide as Hin.
    + rewrite !elem_of_difference, elem_of_singleton. intuition congruence.
    + rewrite !elem_of_difference, elem_of_union, elem_of_singleton. intuition congruence.
Qed.

(** ** After a response of a running job *)

Section Running.
Implicit Types (h : Hook.t) (r : Render.t) (d : ApiData.t).
Local Arguments commit : simpl never.
Local Arguments shouldPoll_of : simpl never.

End Running.



(** ** A response applied by an up-to-date callback *)

(** X15.  A successful response applied by a [pollWebsetStatus] that
    captured the current id, seed and live snapshot extends the items
    shown: they become the merge of the items shown with the response, so
    the items shown before are a prefix of the items shown after.  This
    holds for every pending request, whoever issued it. *)
Theorem current_closure_extends_items (h : Hook.t) (i : nat) (r : Render.t)
    (d : ApiData.t) :
  reachable h →
  Hook.pending h !! i = Some r →
  sameData r (Hook.current h) →
  let h' := step (Settle i (okResponse d)) h in
  effectiveItems h' = mergedItems (effectiveItems h) (incomingItems d)
  ∧ effectiveItems h `prefix_of` effectiveItems h'.
Proof.
  intros Hh Hr (_ & Hseed & Hlive). cbv zeta.
  assert (existingItems r = effectiveItems h) as Hsame.
  { unfold existingItems, effectiveItems, Hook.liveData. rewrite Hlive, Hseed.
    destruct (Render.liveData (Hook.current h)) as [l|] eqn:Hl; simpl.
    - destruct (reachable_liveData h l Hh Hl) as (r0 & d0 & ->). done.
    - by destruct (WebsetData.items _). }
  assert (effectiveItems (step (Settle i (okResponse d)) h)
          = mergedItems (effectiveItems h) (incomingItems d)) as Hitems.
  { unfold effectiveItems at 1.
    rewrite (settle_liveData h i r (okResponse d) Hr). simpl. by rewrite Hsame. }
  split; [done|]. rewrite Hitems. by apply prefix_app_r.
Qed.

(** The first of the two requests issued at mount, answered with a. *)
Lemma current_closure_extends_items_witness :
  effectiveItems
    (step (Settle 0 (okResponse (sampleData "running" false ["a"]))) mountedSession)
  = [WebsetItem.of_id "a"].
Proof.
  assert (reachable mountedSession) as Hh
    by (unfold mountedSession; apply reachable_mount).
  assert (Hook.pending mountedSession !! 0
          = Some (Render.mk (Some "w1") WebsetData.empty true None false)) as Hr
    by (vm_compute; reflexivity).
  destruct (current_closure_extends_items mountedSession 0 _
              (sampleData "running" false ["a"]) Hh Hr) as [Hitems _].
  { by repeat split. }
  rewrite Hitems. vm_compute. reflexivity.
Defined.
